(** * CurlMap splash-screen generator: a shallow embedding of
    [assets/images/create_splash.py] and the properties of its output.

    The script is one function, [create_splash_screen].  It paints a canvas
    through an imaging library, then saves the canvas and three resized
    copies.  The embedding follows the script statement by statement:

    - Python integers are [Z]; [//] and [%] are [Z.div] and [Z.modulo];
    - the gradient arithmetic ([y / height], [int (...)]) is IEEE binary64,
      computed with the pure specification of floats of the Standard Library;
    - the polar coordinates of the two curls go through [math.sin] and
      [math.cos]; they are taken over the real numbers;
    - the canvas is a grid of pixels, a list of rows updated in place;
    - library calls may raise: an environment says which call site raises
      and how the library rasterises shapes, text and resized copies;
    - the function is a computation in a state-and-exception monad: the
      state survives an exception, as the heap of a Python process does. *)

From Stdlib Require Import ZArith List String Lia.
From Stdlib Require Import Floats.SpecFloat.
From Stdlib Require Import Reals Lra.
From stdpp Require Import base list strings gmap.

Local Open Scope Z_scope.

(** ** Binary64 arithmetic, as Python's [float] *)

Module Float64.

Definition prec : Z := 53.
Definition emax : Z := 1024.

(** [float(n)] for a Python integer [n] (round to nearest even). *)
Definition of_int (n : Z) : spec_float := binary_normalize prec emax n 0 false.

Definition add : spec_float -> spec_float -> spec_float := SFadd prec emax.
Definition mul : spec_float -> spec_float -> spec_float := SFmul prec emax.
Definition div : spec_float -> spec_float -> spec_float := SFdiv prec emax.

(** [int(x)]: truncation toward zero.  Python raises on infinities and
    NaN; the script never produces them, and they are mapped to 0 here. *)
Definition to_int (x : spec_float) : Z :=
  match x with
  | S754_finite s m e =>
      let a := if 0 <=? e then Z.shiftl (Zpos m) e else Z.shiftr (Zpos m) (- e) in
      if s then - a else a
  | _ => 0
  end.

End Float64.

(** ** Python built-ins used by the script *)

(** [range(n)] *)
Definition range (n : Z) : list Z := seqZ 0 n.

(** [range(start, stop, step)] for a positive [step]. *)
Definition range3 (start stop step : Z) : list Z :=
  (λ k, start + k * step) <$> seqZ 0 ((stop - start + step - 1) `div` step).

(** [enumerate(l)] *)
Definition enumerate {A} (l : list A) : list (Z * A) :=
  zip (seqZ 0 (Z.of_nat (length l))) l.

(** [Exception] instances; [message] is what [str(e)] prints. *)
Record exn := Exception { message : string }.

(** ** The imaging library: pixels, inks and the canvas *)

(** A pixel of an ['RGB'] image. *)
Abbreviation rgb := (Z * Z * Z)%type.

(** The [fill] argument of a drawing call: a 3- or a 4-tuple. *)
Inductive fill :=
| RGB (r g b : Z)
| RGBA (r g b a : Z).

(** Bounding box [x0, y0, x1, y1]. *)
Abbreviation Box := (Z * Z * Z * Z)%type.

(** An image: rows from top to bottom, [im !! y !! x]. *)
Abbreviation Image := (list (list rgb)).

Module PIL.

Definition clip8 (v : Z) : Z := Z.max 0 (Z.min 255 v).

(** The library turns a colour tuple into a 4-byte ink; the alpha byte
    defaults to 255. *)
Definition getink (f : fill) : Z * Z * Z * Z :=
  match f with
  | RGB r g b => (clip8 r, clip8 g, clip8 b, 255)
  | RGBA r g b a => (clip8 r, clip8 g, clip8 b, clip8 a)
  end.

(** [ImageDraw.Draw(img)] is built from an ['RGB'] image with no mode
    argument: drawing does not blend, the ink's three colour bytes
    replace the pixel and the fourth byte is padding. *)
Definition ink_pixel (f : fill) : rgb :=
  let '(r, g, b, _) := getink f in (r, g, b).

(** [Image.new('RGB', (w, h))]: a black image. *)
Definition new (w h : Z) : Image :=
  replicate (Z.to_nat h) (replicate (Z.to_nat w) (0, 0, 0)).

Definition getpixel (im : Image) (x y : Z) : option rgb :=
  if (0 <=? x) && (0 <=? y)
  then im !! Z.to_nat y ≫= (λ row : list rgb, row !! Z.to_nat x)
  else None.

(** [draw.point((x, y), c)]: one pixel; a point outside the image is
    dropped by the library. *)
Definition point (x y : Z) (c : rgb) (im : Image) : Image :=
  if (0 <=? x) && (0 <=? y)
  then alter (λ row : list rgb, <[Z.to_nat x := c]> row) (Z.to_nat y) im
  else im.

(** A filled shape: every pixel the rasteriser selects takes colour [c]. *)
Definition paint (mask : Z -> Z -> bool) (c : rgb) (im : Image) : Image :=
  imap (λ j (row : list rgb),
          imap (λ i (p : rgb), if mask (Z.of_nat i) (Z.of_nat j) then c else p) row)
       im.

(** The image has [w] columns and [h] rows. *)
Definition has_size (w h : Z) (im : Image) : Prop :=
  Z.of_nat (length im) = h ∧ Forall (λ row : list rgb, Z.of_nat (length row) = w) im.

End PIL.

(** ** Lines 10-16: the colour of row [y] of the gradient *)

Definition gradient_color (height y : Z) : fill :=
  let F := Float64.of_int in
  let ratio := Float64.div (F y) (F height) in
  let r := Float64.to_int (Float64.add (F 46) (Float64.mul (F (168 - 46)) ratio)) in
  let g := Float64.to_int (Float64.add (F 7) (Float64.mul (F (85 - 7)) ratio)) in
  let b := Float64.to_int (Float64.add (F 63) (Float64.mul (F (247 - 63)) ratio)) in
  RGB r g b.

(** ** Call sites, the environment and the process state *)

(** Every library call of the script, by source line; loops carry their
    index. *)
Inductive Site :=
| site_new                     (* line 7: Image.new *)
| site_draw                    (* line 8: ImageDraw.Draw *)
| site_point (x y : Z)         (* line 19 *)
| site_circle (i : Z)          (* line 30 *)
| site_glow (i : Z)            (* line 40 *)
| site_disk                    (* line 46 *)
| site_curl                    (* line 63 *)
| site_curl2                   (* line 74 *)
| site_blade1                  (* line 81 *)
| site_blade2                  (* line 82 *)
| site_title                   (* line 88 *)
| site_subtitle                (* line 93 *)
| site_dot (i : Z)             (* line 100 *)
| site_print_failed            (* line 106 *)
| site_save (name : string)    (* lines 109, 115, 119, 123 *)
| site_resize (size : Z * Z)   (* lines 114, 118, 122 *)
| site_print (line : Z).       (* lines 110, 125 *)

(** The sites inside the [try] block of lines 85-103. *)
Definition in_try (s : Site) : bool :=
  match s with
  | site_title | site_subtitle | site_dot _ => true
  | _ => false
  end.

(** What the script does not decide itself: which call raises (fonts, the
    file system, memory), and how the library rasterises.
    - [ellipse_mask box x y]: pixel (x, y) belongs to the filled ellipse;
    - [polygon_mask pts x y]: pixel (x, y) belongs to the filled polygon;
    - [text_mask xy s x y]: pixel (x, y) is inked when [s] is drawn with
      the default font, anchored by its middle at [xy];
    - [lanczos im box size x y]: pixel (x, y) of the copy of region [box]
      of [im] resampled to [size];
    - [torn_save name]: where a save of [name] that raises stops.  [None]:
      before the file is opened.  [Some junk]: while the file is written,
      after it was opened for writing, and [junk] is what had been
      written of it. *)
Record Env := {
  raises : Site -> option exn;
  ellipse_mask : Box -> Z -> Z -> bool;
  polygon_mask : list (R * R) -> Z -> Z -> bool;
  text_mask : Z * Z -> string -> Z -> Z -> bool;
  lanczos : Image -> Box -> Z * Z -> Z -> Z -> rgb;
  torn_save : string -> option Image
}.

(** What the operating system shows of a run, in order. *)
Inductive Event :=
| Printed (line : string)
| Saved (name : string).

(** The process: the canvas [img], the files of the working directory,
    the events so far, and the ambient clock and random seed (which the
    script never reads). *)
Record State := {
  img : Image;
  fs : gmap string Image;
  trace : list Event;
  clock : Z;
  seed : Z
}.

Definition set_img (f : Image -> Image) (st : State) : State :=
  {| img := f (img st); fs := fs st; trace := trace st;
     clock := clock st; seed := seed st |}.

Definition write_file (name : string) (im : Image) (st : State) : State :=
  {| img := img st; fs := <[name := im]> (fs st);
     trace := trace st ++ [Saved name];
     clock := clock st; seed := seed st |}.

(** What a save that raised leaves of the directory.  [None]: it raised
    before opening its target, and nothing changed.  [Some (name, junk)]:
    it raised while writing.  The library opens the target for writing
    before it encodes, and on an exception removes the file only if the
    save had created it: so a target that existed before now holds
    [junk], and one that did not exist is gone again. *)
Definition tear (t : option (string * Image)) (files : gmap string Image)
    : gmap string Image :=
  match t with
  | Some (name, junk) =>
      match files !! name with
      | Some _ => <[name := junk]> files
      | None => files
      end
  | None => files
  end.

Definition save_failed (t : option (string * Image)) (st : State) : State :=
  {| img := img st; fs := tear t (fs st); trace := trace st;
     clock := clock st; seed := seed st |}.

Definition write_stdout (line : string) (st : State) : State :=
  {| img := img st; fs := fs st; trace := trace st ++ [Printed line];
     clock := clock st; seed := seed st |}.

(** ** The monad: state that survives exceptions *)

Definition M (A : Type) : Type := State -> State * (exn + A).

#[export] Instance M_ret : MRet M := λ A (a : A) st, (st, inr a).

#[export] Instance M_bind : MBind M := λ A B (k : A -> M B) (m : M A) st,
  match m st with
  | (st', inr a) => k a st'
  | (st', inl e) => (st', inl e)
  end.

(** [try: body except Exception as e: handler e] *)
Definition try_except (body : M unit) (handler : exn -> M unit) : M unit := λ st,
  match body st with
  | (st', inl e) => handler e st'
  | r => r
  end.

(** [for x in l: body x] *)
Fixpoint for_ {A} (l : list A) (body : A -> M unit) : M unit :=
  match l with
  | [] => mret ()
  | x :: l' => body x;; for_ l' body
  end.

Definition get_img : M Image := λ st, (st, inr (img st)).

(** ** The script's constants (lines 6, 22-27, 33-34, 52, 77-78) *)

Definition width : Z := 1284.
Definition height : Z := 2778.

Definition circles : list (Z * Z * Z * fill) :=
  [ (200, 300, 60, RGBA 255 255 255 25);
    (1000, 400, 45, RGBA 255 255 255 35);
    (150, 2200, 75, RGBA 255 255 255 20);
    (1100, 2000, 50, RGBA 255 255 255 30) ].

Definition center_x : Z := width `div` 2.
Definition center_y : Z := height `div` 2 - 200.
Definition logo_radius : Z := 200.

Definition curl_center_x : Z := center_x.
Definition curl_center_y : Z := center_y - 30.

Definition scissors_x : Z := center_x + 80.
Definition scissors_y : Z := center_y + 80.

(** [math.radians] *)
Definition radians (x : R) : R := (x * (PI / 180))%R.

(** Lines 55-60: the vertices of the main curl. *)
Definition curl_points : list (R * R) :=
  (λ angle : Z,
     let radius := (80 + 30 * sin (radians (IZR (angle * 2))))%R in
     let x := (IZR curl_center_x + radius * cos (radians (IZR angle)))%R in
     let y := (IZR curl_center_y + radius * sin (radians (IZR angle)))%R in
     (x, y)) <$> range3 0 270 5.

(** Lines 66-71: the vertices of the secondary curl. *)
Definition curl2_points : list (R * R) :=
  (λ angle : Z,
     let radius := (50 + 20 * sin (radians (IZR angle * 1.5)))%R in
     let x := (IZR (curl_center_x + 60) + radius * cos (radians (IZR angle)))%R in
     let y := (IZR (curl_center_y - 20) + radius * sin (radians (IZR angle)))%R in
     (x, y)) <$> range3 30 200 8.

(** Lines 81-82: the boxes of the two scissors blades. *)
Definition blade1_box : Box :=
  (scissors_x - 15, scissors_y - 15, scissors_x + 15, scissors_y + 15).
Definition blade2_box : Box :=
  (scissors_x + 20, scissors_y - 15, scissors_x + 50, scissors_y + 15).

(** [img.size] *)
Definition image_size (im : Image) : Z * Z :=
  (Z.of_nat (length (default [] (head im))), Z.of_nat (length im)).

Section Script.

Context (env : Env).

(** A library call at site [s]: it raises when the environment says so and
    otherwise acts on the process. *)
Definition lib_call {A} (s : Site) (f : State -> State * A) : M A := λ st,
  match raises env s with
  | Some e => (st, inl e)
  | None => let '(st', a) := f st in (st', inr a)
  end.

Definition Image_new (w h : Z) : M unit :=
  lib_call site_new (λ st, (set_img (λ _, PIL.new w h) st, ())).

Definition ImageDraw_Draw : M unit :=
  lib_call site_draw (λ st, (st, ())).

Definition draw_point (x y : Z) (color : fill) : M unit :=
  lib_call (site_point x y)
    (λ st, (set_img (PIL.point x y (PIL.ink_pixel color)) st, ())).

(** The pixels after [draw.ellipse(box, fill=color)]. *)
Definition paint_ellipse (box : Box) (color : fill) : Image -> Image :=
  PIL.paint (ellipse_mask env box) (PIL.ink_pixel color).

(** The pixels after [draw.polygon(pts, fill=color)]. *)
Definition paint_polygon (pts : list (R * R)) (color : fill) : Image -> Image :=
  PIL.paint (polygon_mask env pts) (PIL.ink_pixel color).

(** The pixels after [draw.text(xy, text, fill=color, anchor="mm", font=None)]. *)
Definition paint_text (xy : Z * Z) (text : string) (color : fill) : Image -> Image :=
  PIL.paint (text_mask env xy text) (PIL.ink_pixel color).

(** The image [im.resize(size, Image.Resampling.LANCZOS)] returns: no
    [box] argument, so the whole of [im] is resampled. *)
Definition resized (im : Image) (size : Z * Z) : Image :=
  (λ y, (λ x, lanczos env im (0, 0, (image_size im).1, (image_size im).2) size x y)
          <$> seqZ 0 size.1)
    <$> seqZ 0 size.2.

Definition draw_ellipse (s : Site) (box : Box) (color : fill) : M unit :=
  lib_call s (λ st, (set_img (paint_ellipse box color) st, ())).

Definition draw_polygon (s : Site) (pts : list (R * R)) (color : fill) : M unit :=
  lib_call s (λ st, (set_img (paint_polygon pts color) st, ())).

Definition draw_text (s : Site) (xy : Z * Z) (text : string) (color : fill) : M unit :=
  lib_call s (λ st, (set_img (paint_text xy text color) st, ())).

Definition Image_resize (im : Image) (size : Z * Z) : M Image :=
  lib_call (site_resize size) (λ st, (st, resized im size)).

(** How the save of [name] fails in this environment, if it does. *)
Definition torn (name : string) : option (string * Image) :=
  (λ junk, (name, junk)) <$> torn_save env name.

(** [im.save(name, 'PNG')]: creates or overwrites the file.  When it
    raises, the directory is left as [tear] says. *)
Definition Image_save (im : Image) (name : string) : M unit := λ st,
  match raises env (site_save name) with
  | Some e => (save_failed (torn name) st, inl e)
  | None => (write_file name im st, inr ())
  end.

Definition print (s : Site) (line : string) : M unit :=
  lib_call s (λ st, (write_stdout line st, ())).

(** Lines 10-19. *)
Definition gradient_background : M unit :=
  for_ (range height) (λ y,
    let color := gradient_color height y in
    for_ (range width) (λ x, draw_point x y color)).

(** Lines 29-30; the site carries the position in the list. *)
Definition decorative_circles : M unit :=
  for_ (enumerate circles) (λ '(i, (x, y, r, color)),
    draw_ellipse (site_circle i) (x - r, y - r, x + r, y + r) color).

(** Lines 37-43. *)
Definition outer_glow : M unit :=
  for_ (range 3) (λ i,
    let alpha := 50 - i * 15 in
    let radius := logo_radius + i * 20 in
    draw_ellipse (site_glow i)
      (center_x - radius, center_y - radius, center_x + radius, center_y + radius)
      (RGBA 255 255 255 alpha)).

(** Lines 46-49. *)
Definition logo_disk : M unit :=
  draw_ellipse site_disk
    (center_x - logo_radius, center_y - logo_radius,
     center_x + logo_radius, center_y + logo_radius)
    (RGB 255 255 255).

(** Lines 62-63. *)
Definition main_curl : M unit :=
  if 2 <? Z.of_nat (length curl_points)
  then draw_polygon site_curl curl_points (RGB 114 9 183)
  else mret ().

(** Lines 73-74. *)
Definition secondary_curl : M unit :=
  if 2 <? Z.of_nat (length curl2_points)
  then draw_polygon site_curl2 curl2_points (RGB 168 85 247)
  else mret ().

(** Lines 81-82. *)
Definition scissors : M unit :=
  draw_ellipse site_blade1 blade1_box (RGB 255 107 107);;
  draw_ellipse site_blade2 blade2_box (RGB 255 107 107).

(** Lines 86-103: the body of the [try]. *)
Definition text_body : M unit :=
  let title_y := center_y + 300 in
  draw_text site_title (center_x, title_y) "CurlMap" (RGB 255 255 255);;
  let subtitle_y := title_y + 60 in
  draw_text site_subtitle (center_x, subtitle_y) "Hair Stylist Platform" (RGB 255 255 255);;
  let dot_y := subtitle_y + 100 in
  for_ (enumerate [-45; 0; 45]) (λ '(i, x_offset),
    let alpha := 150 + (i * 30) `mod` 105 in
    draw_ellipse (site_dot i)
      (center_x + x_offset - 8, dot_y - 8, center_x + x_offset + 8, dot_y + 8)
      (RGBA 255 255 255 alpha)).

(** Lines 105-106. *)
Definition text_handler (e : exn) : M unit :=
  print site_print_failed ("Text rendering failed: " +:+ message e).

(** Lines 108-125. *)
Definition save_outputs : M unit :=
  im ← get_img;
  Image_save im "splash.png";;
  print (site_print 110) "Splash screen created as splash.png";;
  im ← get_img;
  adaptive_img ← Image_resize im (1024, 1024);
  Image_save adaptive_img "adaptive-icon.png";;
  im ← get_img;
  icon_img ← Image_resize im (512, 512);
  Image_save icon_img "icon.png";;
  im ← get_img;
  notification_img ← Image_resize im (96, 96);
  Image_save notification_img "notification-icon.png";;
  print (site_print 125) "All splash screen assets created successfully!".

Definition create_splash_screen : M unit :=
  Image_new width height;;
  ImageDraw_Draw;;
  gradient_background;;
  decorative_circles;;
  outer_glow;;
  logo_disk;;
  main_curl;;
  secondary_curl;;
  scissors;;
  try_except text_body text_handler;;
  save_outputs.

End Script.

(** ** The pixels the script draws when no call raises *)

(** Lines 11-19 on a [w] by [h] canvas: one [draw.point] per pixel. *)
Definition fill_pixels (w h : Z) (im : Image) : Image :=
  foldl (λ im y,
           foldl (λ im x, PIL.point x y (PIL.ink_pixel (gradient_color h y)) im)
                 im (range w))
        im (range h).

Definition background_pixels : Image -> Image := fill_pixels width height.

(** Following the specification (4.1, step 1): the whole row [y] is filled
    with the one colour of that row. *)
Definition fill_row (w y : Z) (c : rgb) (im : Image) : Image :=
  <[Z.to_nat y := replicate (Z.to_nat w) c]> im.

Definition fill_rows (w h : Z) (im : Image) : Image :=
  foldl (λ im y, fill_row w y (PIL.ink_pixel (gradient_color h y)) im) im (range h).

(** Following the specification (3, "translucent", "low-alpha white
    fill"): ink of opacity [a]/255 laid over a pixel. *)
Definition alpha_blend (a : Z) (src dst : rgb) : rgb :=
  let mix (s d : Z) := (s * a + d * (255 - a)) `div` 255 in
  (mix src.1.1 dst.1.1, mix src.1.2 dst.1.2, mix src.2 dst.2).

Section Canvas.

Context (env : Env).

(** Lines 29-30. *)
Definition circles_pixels (im : Image) : Image :=
  foldl (λ im '(x, y, r, color), paint_ellipse env (x - r, y - r, x + r, y + r) color im)
        im circles.

(** Lines 37-43. *)
Definition glow_pixels (im : Image) : Image :=
  foldl (λ im i,
           paint_ellipse env
             (center_x - (logo_radius + i * 20), center_y - (logo_radius + i * 20),
              center_x + (logo_radius + i * 20), center_y + (logo_radius + i * 20))
             (RGBA 255 255 255 (50 - i * 15)) im)
        im (range 3).

(** Lines 46-49. *)
Definition disk_pixels : Image -> Image :=
  paint_ellipse env
    (center_x - logo_radius, center_y - logo_radius,
     center_x + logo_radius, center_y + logo_radius)
    (RGB 255 255 255).

(** Lines 62-63 and 73-74. *)
Definition curl_pixels (im : Image) : Image :=
  if 2 <? Z.of_nat (length curl_points)
  then paint_polygon env curl_points (RGB 114 9 183) im else im.

Definition curl2_pixels (im : Image) : Image :=
  if 2 <? Z.of_nat (length curl2_points)
  then paint_polygon env curl2_points (RGB 168 85 247) im else im.

(** Lines 81-82. *)
Definition scissors_pixels (im : Image) : Image :=
  paint_ellipse env blade2_box (RGB 255 107 107)
    (paint_ellipse env blade1_box (RGB 255 107 107) im).

(** The canvas after the decorative circles (line 30). *)
Definition decorated_canvas : Image :=
  circles_pixels (background_pixels (PIL.new width height)).

(** The canvas on entry to the [try] block (line 85). *)
Definition logo_canvas : Image :=
  scissors_pixels (curl2_pixels (curl_pixels (disk_pixels (glow_pixels decorated_canvas)))).

(** The five drawing calls of the [try] block, in order: the site, the
    pixels the call inks and its [fill]. *)
Definition text_steps : list (Site * (Z -> Z -> bool) * fill) :=
  [ (site_title, text_mask env (center_x, center_y + 300) "CurlMap",
     RGB 255 255 255);
    (site_subtitle,
     text_mask env (center_x, center_y + 300 + 60) "Hair Stylist Platform",
     RGB 255 255 255) ]
  ++ ((λ '(i, x_offset),
         (site_dot i,
          ellipse_mask env
            (center_x + x_offset - 8, center_y + 300 + 60 + 100 - 8,
             center_x + x_offset + 8, center_y + 300 + 60 + 100 + 8),
          RGBA 255 255 255 (150 + (i * 30) `mod` 105)))
        <$> enumerate [-45; 0; 45]).

(** The first of [sites] that raises, with its position. *)
Fixpoint first_raise (sites : list Site) : option (nat * exn) :=
  match sites with
  | [] => None
  | s :: rest =>
      match raises env s with
      | Some e => Some (0%nat, e)
      | None => (λ '(k, e), (S k, e)) <$> first_raise rest
      end
  end.

(** Where the [try] block fails, if it does. *)
Definition text_failure : option (nat * exn) := first_raise (text_steps.*1.*1).

(** The working directory after lines 109-123 saved [canvas]. *)
Definition outputs (canvas : Image) (files : gmap string Image) : gmap string Image :=
  <["notification-icon.png" := resized env canvas (96, 96)]>
    (<["icon.png" := resized env canvas (512, 512)]>
       (<["adaptive-icon.png" := resized env canvas (1024, 1024)]>
          (<["splash.png" := canvas]> files))).

End Canvas.

(** What lines 109-125 save and print, in order. *)
Definition save_events : list Event :=
  [ Saved "splash.png";
    Printed "Splash screen created as splash.png";
    Saved "adaptive-icon.png";
    Saved "icon.png";
    Saved "notification-icon.png";
    Printed "All splash screen assets created successfully!" ].

(** The names of the files a trace saved, in order. *)
Definition saved_names (t : list Event) : list string :=
  omap (λ ev, match ev with Saved name => Some name | Printed _ => None end) t.

(** The sites outside the [try] block that every complete run calls. *)
Definition always_called (s : Site) : bool :=
  match s with
  | site_new | site_draw | site_disk | site_curl | site_curl2
  | site_blade1 | site_blade2 => true
  | site_point x y => (0 <=? x) && (x <? width) && (0 <=? y) && (y <? height)
  | site_circle i => (0 <=? i) && (i <? 4)
  | site_glow i => (0 <=? i) && (i <? 3)
  | site_save name =>
      bool_decide (name ∈ ["splash.png"; "adaptive-icon.png"; "icon.png";
                           "notification-icon.png"])
  | site_resize size => bool_decide (size ∈ [(1024, 1024); (512, 512); (96, 96)])
  | site_print line => bool_decide (line ∈ [110; 125])
  | site_title | site_subtitle | site_dot _ | site_print_failed => false
  end.

(** ** Runs from different processes *)

(** The process [st] after a computation left the canvas [im], saved the
    files [written], failed a save as [t] says and produced [events]. *)
Definition effect_on (st : State) (im : Image) (written : gmap string Image)
    (t : option (string * Image)) (events : list Event) : State :=
  {| img := im; fs := tear t (written ∪ fs st); trace := trace st ++ events;
     clock := clock st; seed := seed st |}.

(** A computation is uniform when, from two processes that hold the same
    canvas, it ends the same way with the same effect: it reads nothing
    of the files, the events, the clock or the seed. *)
Definition uniform {A} (m : M A) : Prop :=
  ∀ st1 st2, img st1 = img st2 →
    ∃ (r : exn + A) (im : Image) (written : gmap string Image)
      (t : option (string * Image)) (events : list Event),
      m st1 = (effect_on st1 im written t events, r)
      ∧ m st2 = (effect_on st2 im written t events, r)
      ∧ ∀ a, r = inr a → t = None.

(** A row of the gradient agrees with exact integer interpolation. *)
Definition exact_row (y : Z) : bool :=
  match gradient_color height y with
  | RGB r g b =>
      (r =? 46 + (122 * y) `div` 2778) && (g =? 7 + (78 * y) `div` 2778)
      && (b =? 63 + (184 * y) `div` 2778)
  | RGBA _ _ _ _ => false
  end.

(** ** Sample environments *)

#[export] Instance Site_eq_dec : EqDecision Site.
Proof. solve_decision. Defined.

(** The pixels whose centre satisfies the equation of the ellipse
    inscribed in [box]. *)
Definition ideal_ellipse (box : Box) (x y : Z) : bool :=
  let '(x0, y0, x1, y1) := box in
  let w := x1 - x0 in
  let h := y1 - y0 in
  h * h * ((2 * x - x0 - x1) * (2 * x - x0 - x1))
  + w * w * ((2 * y - y0 - y1) * (2 * y - y0 - y1)) <=? w * w * (h * h).

(** Text as a solid block, 6 by 11 pixels a character, centred on [xy]. *)
Definition block_text (xy : Z * Z) (s : string) (x y : Z) : bool :=
  (Z.abs (x - xy.1) <=? 3 * Z.of_nat (String.length s)) && (Z.abs (y - xy.2) <=? 5).

(** Nearest-neighbour resampling of region [box]. *)
Definition nearest (im : Image) (box : Box) (size : Z * Z) (x y : Z) : rgb :=
  let '(x0, y0, x1, y1) := box in
  default (0, 0, 0)
    (PIL.getpixel im (x0 + (x * (x1 - x0)) `div` size.1)
                  (y0 + (y * (y1 - y0)) `div` size.2)).

(** An environment with these rasterisers, no polygon interior, and the
    given faults; a save that fails does so while writing, after the file
    was truncated. *)
Definition studio (faults : Site -> option exn) : Env :=
  {| raises := faults;
     ellipse_mask := ideal_ellipse;
     polygon_mask := λ _ _ _, false;
     text_mask := block_text;
     lanczos := nearest;
     torn_save := λ _, Some [] |}.

(** Nothing raises. *)
Definition quiet : Env := studio (λ _, None).

(** Pixel (x, y), as the unit square at (x, y), holds the point [v]. *)
Definition holds (x y : Z) (v : R * R) : Prop :=
  (IZR x <= v.1 < IZR x + 1 ∧ IZR y <= v.2 < IZR y + 1)%R.

#[export] Instance holds_dec (x y : Z) (v : R * R) : Decision (holds x y v).
Proof.
  unfold holds.
  destruct (Rle_dec (IZR x) v.1), (Rlt_dec v.1 (IZR x + 1)),
    (Rle_dec (IZR y) v.2), (Rlt_dec v.2 (IZR y + 1));
    first [ left; tauto | right; tauto ].
Defined.

(** The least a polygon rasteriser inks: the pixels that hold a vertex. *)
Definition vertex_mask (pts : list (R * R)) (x y : Z) : bool :=
  bool_decide (Exists (holds x y) pts).

(** Nothing raises, and polygons are inked at their vertices. *)
Definition sketch : Env :=
  {| raises := λ _, None;
     ellipse_mask := ideal_ellipse;
     polygon_mask := vertex_mask;
     text_mask := block_text;
     lanczos := nearest;
     torn_save := λ _, Some [] |}.

(** The default font is a bitmap font and rejects the anchor. *)
Definition no_font : Env :=
  studio (λ s, if decide (s = site_title)
               then Some (Exception "anchor not supported for non-TrueType fonts")
               else None).

(** The title is drawn, the subtitle is not. *)
Definition subtitle_fails : Env :=
  studio (λ s, if decide (s = site_subtitle)
               then Some (Exception "unsupported glyph")
               else None).

(** The disk fills up while the third file is written. *)
Definition disk_full : Env :=
  studio (λ s, if decide (s = site_save "icon.png")
               then Some (Exception "[Errno 28] No space left on device")
               else None).

(** A fresh process: no canvas yet, an empty directory. *)
Definition boot : State :=
  {| img := []; fs := ∅; trace := []; clock := 0; seed := 0 |}.

(** The process after line 7: the black canvas, nothing drawn yet. *)
Definition fresh_canvas : State := set_img (λ _, PIL.new width height) boot.

(** A directory that already holds an [icon.png], from an earlier build. *)
Definition old_icon : State :=
  {| img := []; fs := {[ "icon.png" := [[(1, 2, 3)]] ]}; trace := [];
     clock := 0; seed := 0 |}.

(** The squared distance of a point to the logo centre. *)
Definition dist2_logo (p : R * R) : R :=
  ((p.1 - IZR center_x) * (p.1 - IZR center_x)
   + (p.2 - IZR center_y) * (p.2 - IZR center_y))%R.

(** Following the specification (4.1, step 5, "sample angle from 0 to
    270 degrees in 5 degree steps"): both ends included. *)
Definition claimed_curl_angles : list Z := (λ k, 5 * k) <$> seqZ 0 55.

Definition claimed_curl_points : list (R * R) :=
  (λ angle : Z,
     let radius := (80 + 30 * sin (radians (IZR (angle * 2))))%R in
     let x := (IZR curl_center_x + radius * cos (radians (IZR angle)))%R in
     let y := (IZR curl_center_y + radius * sin (radians (IZR angle)))%R in
     (x, y)) <$> claimed_curl_angles.

(** Lines 46-49: the box of the logo disk. *)
Definition disk_box : Box :=
  (center_x - logo_radius, center_y - logo_radius,
   center_x + logo_radius, center_y + logo_radius).

(** Pixel (x, y) is inked by the logo glyph: by one of the two curls
    (lines 63, 74) or one of the two blades (lines 81, 82). *)
Definition glyph_pixel (env : Env) (x y : Z) : Prop :=
  polygon_mask env curl_points x y = true
  ∨ polygon_mask env curl2_points x y = true
  ∨ ellipse_mask env blade1_box x y = true
  ∨ ellipse_mask env blade2_box x y = true.

(** What the script may expect of the library's rasterisers:
    - a filled ellipse stays within its box;
    - a filled circle of radius [r] covers every pixel whose centre is
      within [r - 1] of its centre;
    - a filled polygon inks no pixel more than two pixels outside a disk
      that holds all its vertices (the fill stays in the convex hull of
      the vertices, up to their truncation to pixels). *)
Record sound_rasteriser (env : Env) : Prop := {
  ellipse_in_box : ∀ x0 y0 x1 y1 x y,
    x0 < x1 → y0 < y1 → ellipse_mask env (x0, y0, x1, y1) x y = true →
    x0 ≤ x ≤ x1 ∧ y0 ≤ y ≤ y1;
  circle_covers : ∀ cx cy r x y,
    1 ≤ r → (x - cx) * (x - cx) + (y - cy) * (y - cy) ≤ (r - 1) * (r - 1) →
    ellipse_mask env (cx - r, cy - r, cx + r, cy + r) x y = true;
  polygon_near_vertices : ∀ pts (cx cy rho : R) x y,
    (0 <= rho)%R →
    (∀ p, p ∈ pts →
       ((p.1 - cx) * (p.1 - cx) + (p.2 - cy) * (p.2 - cy) <= rho * rho)%R) →
    polygon_mask env pts x y = true →
    ((IZR x - cx) * (IZR x - cx) + (IZR y - cy) * (IZR y - cy)
     <= (rho + 2) * (rho + 2))%R
}.

(** The real points of a box, its last column and row of pixels included. *)
Definition in_box (box : Box) (p : R * R) : Prop :=
  let '(x0, y0, x1, y1) := box in
  (IZR x0 <= p.1 <= IZR x1 + 1 ∧ IZR y0 <= p.2 <= IZR y1 + 1)%R.

(** No call outside the [try] block raises. *)
Definition quiet_outside_try (env : Env) : Prop :=
  ∀ s, in_try s = false → raises env s = None.

(** The pixels after the first [k] calls of the [try] block. *)
Definition paint_text_steps (env : Env) (k : nat) (im : Image) : Image :=
  foldl (λ im '(_, mask, color), PIL.paint mask (PIL.ink_pixel color) im)
        im (take k (text_steps env)).

(** The process on leaving the [try] statement (line 107). *)
Definition after_text (env : Env) (st : State) : State :=
  match text_failure env with
  | None => set_img (paint_text_steps env 5) st
  | Some (k, e) =>
      write_stdout ("Text rendering failed: " +:+ message e)
        (set_img (paint_text_steps env k) st)
  end.

(** The process after lines 108-125 when no call there raises. *)
Definition saved (env : Env) (st : State) : State :=
  {| img := img st; fs := outputs env (img st) (fs st);
     trace := trace st ++ save_events; clock := clock st; seed := seed st |}.

(** An exception that leaves [m] was raised outside the [try] block. *)
Definition raises_outside (env : Env) {A} (m : M A) : Prop :=
  ∀ st st' e, m st = (st', inl e) → ∃ s, in_try s = false ∧ raises env s = Some e.

(** When [m] completes, the call at site [s] has returned. *)
Definition calls (env : Env) {A} (m : M A) (s : Site) : Prop :=
  ∀ st st' a, m st = (st', inr a) → raises env s = None.

(** ** The outputs of lines 109-123, one by one *)

(** The files in the order the script saves them. *)
Definition output_files (env : Env) (canvas : Image) : list (string * Image) :=
  [ ("splash.png", canvas);
    ("adaptive-icon.png", resized env canvas (1024, 1024));
    ("icon.png", resized env canvas (512, 512));
    ("notification-icon.png", resized env canvas (96, 96)) ].

Definition output_names : list string :=
  ["splash.png"; "adaptive-icon.png"; "icon.png"; "notification-icon.png"].

(** The working directory after the first [k] of them were saved. *)
Definition outputs_prefix (env : Env) (canvas : Image) (k : nat)
    (files : gmap string Image) : gmap string Image :=
  foldl (λ m '(name, im), <[name := im]> m) files (take k (output_files env canvas)).

(** The calls of lines 7-82, before the [try] block. *)
Definition drawing_site (s : Site) : bool :=
  match s with
  | site_new | site_draw | site_disk | site_curl | site_curl2
  | site_blade1 | site_blade2 => true
  | site_point x y => (0 <=? x) && (x <? width) && (0 <=? y) && (y <? height)
  | site_circle i => (0 <=? i) && (i <? 4)
  | site_glow i => (0 <=? i) && (i <? 3)
  | _ => false
  end.

(** A computation that saves no file and prints nothing but the
    diagnostic of line 106. *)
Definition draws_only {A} (m : M A) : Prop :=
  ∀ st st' r, m st = (st', r) →
    fs st' = fs st
    ∧ ∃ t, trace st' = trace st ++ t
           ∧ Forall (λ ev, ∃ msg, ev = Printed ("Text rendering failed: " +:+ msg)) t.

(** A computation that keeps the size of the canvas. *)
Definition keeps_size (w h : Z) {A} (m : M A) : Prop :=
  ∀ st st' r, m st = (st', r) → PIL.has_size w h (img st) → PIL.has_size w h (img st').

(** The process when lines 108-125 stopped after the first [n] of their
    six events, the save that stopped them, if any, failing as [t] says. *)
Definition save_state (env : Env) (st : State) (n : nat)
    (t : option (string * Image)) : State :=
  {| img := img st;
     fs := tear t (outputs_prefix env (img st)
                     (length (saved_names (take n save_events))) (fs st));
     trace := trace st ++ take n save_events;
     clock := clock st; seed := seed st |}.

(** How a stop after [n] events tore the directory: [t] is [None], or
    the failure of the save that was next. *)
Definition tear_of (env : Env) (n : nat) (t : option (string * Image)) : Prop :=
  ∀ name junk, t = Some (name, junk) →
    output_names !! length (saved_names (take n save_events)) = Some name
    ∧ is_Some (raises env (site_save name))
    ∧ torn_save env name = Some junk.

(** What every run of a computation that ends with lines 108-125 leaves:
    diagnostics, then a prefix of the save events, and the files of that
    prefix, taken from the final canvas, with what a failed save left. *)
Definition run_shape (env : Env) (m : M unit) : Prop :=
  ∀ st st' r, m st = (st', r) →
    ∃ (n : nat) (t0 : list Event) (t : option (string * Image)),
      (n ≤ 6)%nat
      ∧ fs st'
        = tear t (outputs_prefix env (img st')
                    (length (saved_names (take n save_events))) (fs st))
      ∧ trace st' = trace st ++ t0 ++ take n save_events
      ∧ Forall (λ ev, ∃ msg, ev = Printed ("Text rendering failed: " +:+ msg)) t0
      ∧ (r = inr () ↔ n = 6%nat)
      ∧ (r = inr () → t = None)
      ∧ tear_of env n t.

(** No usable font, and standard output is closed. *)
Definition closed_stdout : Env :=
  studio (λ s, if decide (s = site_title)
               then Some (Exception "anchor not supported for non-TrueType fonts")
               else if decide (s = site_print_failed)
                    then Some (Exception "[Errno 9] Bad file descriptor")
                    else None).

(** The number of events of lines 108-125 before the [k]-th save. *)
Definition events_before_save (k : nat) : nat :=
  match k with
  | O => 0
  | S k' => S (S k')
  end.

(** * Lemmas *)

(** ** The gradient arithmetic *)

Lemma exact_rows : forallb exact_row (range height) = true.
Proof. vm_compute. reflexivity. Qed.

Lemma gradient_color_exact y :
  0 ≤ y < height →
  gradient_color height y
  = RGB (46 + (122 * y) `div` 2778) (7 + (78 * y) `div` 2778) (63 + (184 * y) `div` 2778).
Proof.
  intros Hy.
  assert (Hin : In y (range height)).
  { apply list_elem_of_In, elem_of_seqZ. lia. }
  pose proof (proj1 (forallb_forall exact_row (range height)) exact_rows y Hin) as Hrow.
  unfold exact_row in Hrow.
  destruct (gradient_color height y) as [r g b|]; [|discriminate].
  apply andb_prop in Hrow as [Hrg Hb]. apply andb_prop in Hrg as [Hr Hg].
  apply Z.eqb_eq in Hr, Hg, Hb. by subst.
Qed.

Lemma clip8_id v : 0 ≤ v ≤ 255 → PIL.clip8 v = v.
Proof. unfold PIL.clip8. lia. Qed.

(** The pixel of row [y], in exact integer arithmetic. *)
Lemma gradient_pixel y :
  0 ≤ y < height →
  PIL.ink_pixel (gradient_color height y)
  = (46 + (122 * y) `div` 2778, 7 + (78 * y) `div` 2778, 63 + (184 * y) `div` 2778).
Proof.
  intros Hy. rewrite gradient_color_exact by done.
  unfold height in Hy. unfold PIL.ink_pixel, PIL.getink.
  assert (0 ≤ (122 * y) `div` 2778 ≤ 121).
  { split; [apply Z.div_pos; lia|]. apply Z.lt_succ_r, Z.div_lt_upper_bound; lia. }
  assert (0 ≤ (78 * y) `div` 2778 ≤ 77).
  { split; [apply Z.div_pos; lia|]. apply Z.lt_succ_r, Z.div_lt_upper_bound; lia. }
  assert (0 ≤ (184 * y) `div` 2778 ≤ 183).
  { split; [apply Z.div_pos; lia|]. apply Z.lt_succ_r, Z.div_lt_upper_bound; lia. }
  rewrite !clip8_id by lia. done.
Qed.

(** ** Filling the canvas *)

Lemma foldl_ext_invariant {A B} (P : A → Prop) (f g : A → B → A) (l : list B) (a : A) :
  P a →
  (∀ a x, P a → x ∈ l → P (f a x)) →
  (∀ a x, P a → x ∈ l → f a x = g a x) →
  foldl f a l = foldl g a l ∧ P (foldl f a l).
Proof.
  revert a. induction l as [|x l IH]; intros a Ha Hpres Hext; [done|].
  simpl. rewrite <- (Hext a x Ha) by left.
  apply IH.
  - apply Hpres; [done|left].
  - intros a' x' Ha' Hx'. apply Hpres; [done|by right].
  - intros a' x' Ha' Hx'. apply Hext; [done|by right].
Qed.

(** Writing the pixels of a row one by one from the left. *)
Lemma row_pointwise (c : rgb) (row : list rgb) (n : nat) :
  (n ≤ length row)%nat →
  foldl (λ r x, <[Z.to_nat x := c]> r) row (seqZ 0 (Z.of_nat n))
  = replicate n c ++ drop n row.
Proof.
  induction n as [|n IH]; intros Hn; [done|].
  rewrite seqZ_S, foldl_snoc, IH by lia.
  replace (Z.to_nat (0 + Z.of_nat n)) with n by lia.
  replace (S n) with (n + 1)%nat at 2 by lia.
  rewrite <- drop_drop.
  destruct (drop n row) as [|p rest] eqn:Hdrop.
  { apply (f_equal length) in Hdrop. rewrite length_drop in Hdrop. simpl in Hdrop. lia. }
  rewrite insert_app_r_alt by (rewrite length_replicate; lia).
  rewrite length_replicate, Nat.sub_diag, replicate_S_end, <- app_assoc. done.
Qed.

(** The inner loop of line 18 acts on row [y] alone. *)
Lemma points_alter (c : rgb) (y : Z) (xs : list Z) (im : Image) :
  0 ≤ y → (∀ x, x ∈ xs → 0 ≤ x) →
  foldl (λ im x, PIL.point x y c im) im xs
  = alter (λ row, foldl (λ r x, <[Z.to_nat x := c]> r) row xs) (Z.to_nat y) im.
Proof.
  intros Hy. revert im. induction xs as [|x xs IH]; intros im Hxs; simpl.
  { by rewrite list_alter_id. }
  rewrite IH by (intros; apply Hxs; by right).
  unfold PIL.point.
  assert (0 ≤ x) as Hx by (apply Hxs; left).
  replace ((0 <=? x) && (0 <=? y)) with true by (symmetry; apply andb_true_iff; lia).
  by rewrite list_alter_alter_eq.
Qed.

(** One pass of the inner loop is one row fill. *)
Lemma points_fill_row (c : rgb) (w y : Z) (im : Image) :
  0 ≤ y → 0 ≤ w → Forall (λ row : list rgb, Z.of_nat (length row) = w) im →
  foldl (λ im x, PIL.point x y c im) im (range w) = fill_row w y c im.
Proof.
  intros Hy Hw Hrows. unfold range.
  rewrite points_alter; [|done|intros x Hx; apply elem_of_seqZ in Hx; lia].
  unfold fill_row. rewrite list_insert_alter.
  apply list_alter_ext; [|done].
  intros row Hrow.
  rewrite Forall_lookup in Hrows. specialize (Hrows _ _ Hrow).
  rewrite <- (Z2Nat.id w) at 1 by done.
  rewrite row_pointwise by lia.
  rewrite drop_ge by lia. by rewrite app_nil_r.
Qed.

Lemma fill_row_size (w h y : Z) (c : rgb) (im : Image) :
  0 ≤ w → PIL.has_size w h im → PIL.has_size w h (fill_row w y c im).
Proof.
  intros Hw [Hh Hrows]. split.
  - unfold fill_row. by rewrite length_insert.
  - apply Forall_insert; [done|]. rewrite length_replicate. lia.
Qed.

(** The closed form of the row-filled canvas. *)
Lemma fill_rows_prefix (w h : Z) (im : Image) (n : nat) :
  (n ≤ length im)%nat →
  foldl (λ im y, fill_row w y (PIL.ink_pixel (gradient_color h y)) im) im
        (seqZ 0 (Z.of_nat n))
  = ((λ y, replicate (Z.to_nat w) (PIL.ink_pixel (gradient_color h y)))
       <$> seqZ 0 (Z.of_nat n)) ++ drop n im.
Proof.
  induction n as [|n IH]; intros Hn; [done|].
  rewrite seqZ_S, foldl_snoc, IH by lia.
  rewrite fmap_app. simpl. unfold fill_row at 1.
  replace (Z.to_nat (0 + Z.of_nat n)) with n by lia.
  replace (drop (S n) im) with (drop 1 (drop n im))
    by (rewrite drop_drop; f_equal; lia).
  destruct (drop n im) as [|p rest] eqn:Hdrop.
  { apply (f_equal length) in Hdrop. rewrite length_drop in Hdrop. simpl in Hdrop. lia. }
  assert (length ((λ y, replicate (Z.to_nat w) (PIL.ink_pixel (gradient_color h y)))
                    <$> seqZ 0 (Z.of_nat n)) = n) as Hlen.
  { rewrite length_fmap, length_seqZ. lia. }
  rewrite insert_app_r_alt by lia.
  rewrite Hlen, Nat.sub_diag, <- app_assoc. done.
Qed.

Lemma fill_rows_closed (w h : Z) (im : Image) :
  PIL.has_size w h im →
  fill_rows w h im
  = (λ y, replicate (Z.to_nat w) (PIL.ink_pixel (gradient_color h y))) <$> seqZ 0 h.
Proof.
  intros [Hh _]. unfold fill_rows, range. rewrite <- Hh.
  rewrite fill_rows_prefix by done. rewrite drop_all. by rewrite app_nil_r.
Qed.

(** The per-pixel loops and the per-row fill build the same canvas. *)
Lemma fill_pixels_rows (w h : Z) (im : Image) :
  0 ≤ w → PIL.has_size w h im → fill_pixels w h im = fill_rows w h im.
Proof.
  intros Hw Him. unfold fill_pixels, fill_rows.
  apply (foldl_ext_invariant (PIL.has_size w h)); [done| |].
  - intros a y Ha Hy. apply elem_of_seqZ in Hy.
    rewrite points_fill_row; [by apply fill_row_size|lia|done|apply Ha].
  - intros a y Ha Hy. apply elem_of_seqZ in Hy.
    apply points_fill_row; [lia|done|apply Ha].
Qed.

Lemma new_size (w h : Z) : 0 ≤ w → 0 ≤ h → PIL.has_size w h (PIL.new w h).
Proof.
  intros Hw Hh. split.
  - unfold PIL.new. rewrite length_replicate. lia.
  - apply Forall_replicate. rewrite length_replicate. lia.
Qed.

Lemma getpixel_new (w h x y : Z) :
  0 ≤ x < w → 0 ≤ y < h → PIL.getpixel (PIL.new w h) x y = Some (0, 0, 0).
Proof.
  intros Hx Hy. unfold PIL.getpixel, PIL.new.
  replace ((0 <=? x) && (0 <=? y)) with true by (symmetry; apply andb_true_iff; lia).
  rewrite lookup_replicate_2 by lia. cbn [mbind option_bind].
  by rewrite lookup_replicate_2 by lia.
Qed.

Lemma getpixel_fresh_canvas (x y : Z) :
  0 ≤ x < width → 0 ≤ y < height →
  PIL.getpixel (img fresh_canvas) x y = Some (0, 0, 0).
Proof.
  intros Hx Hy. unfold fresh_canvas, set_img. cbn [img]. by apply getpixel_new.
Qed.

Lemma getpixel_fill_rows (w h : Z) (im : Image) (x y : Z) :
  PIL.has_size w h im → 0 ≤ x < w → 0 ≤ y < h →
  PIL.getpixel (fill_rows w h im) x y = Some (PIL.ink_pixel (gradient_color h y)).
Proof.
  intros Him Hx Hy. rewrite fill_rows_closed by done.
  unfold PIL.getpixel.
  replace ((0 <=? x) && (0 <=? y)) with true by (symmetry; apply andb_true_iff; lia).
  rewrite list_lookup_fmap, lookup_seqZ_lt by lia. simpl.
  rewrite lookup_replicate_2 by lia. do 3 f_equal. lia.
Qed.

(** ** Running the monad *)

Lemma bind_inr {A B} (m : M A) (k : A → M B) (st st' : State) (a : A) :
  m st = (st', inr a) → (m ≫= k) st = k a st'.
Proof. intros H. unfold mbind, M_bind. by rewrite H. Qed.

Lemma bind_inl {A B} (m : M A) (k : A → M B) (st st' : State) (e : exn) :
  m st = (st', inl e) → (m ≫= k) st = (st', inl e).
Proof. intros H. unfold mbind, M_bind. by rewrite H. Qed.

Lemma bind_inr_inv {A B} (m : M A) (k : A → M B) (st st' : State) (b : B) :
  (m ≫= k) st = (st', inr b) →
  ∃ st1 a, m st = (st1, inr a) ∧ k a st1 = (st', inr b).
Proof.
  unfold mbind, M_bind. destruct (m st) as [st1 [e|a]]; [done|]. eauto.
Qed.

Lemma lib_call_quiet {A} (env : Env) (s : Site) (f : State → State * A) (st : State) :
  raises env s = None → lib_call env s f st = ((f st).1, inr (f st).2).
Proof. intros H. unfold lib_call. rewrite H. by destruct (f st). Qed.

Lemma lib_call_raises {A} (env : Env) (s : Site) (f : State → State * A) st e :
  raises env s = Some e → lib_call env s f st = (st, inl e).
Proof. intros H. unfold lib_call. by rewrite H. Qed.

Lemma lib_call_inr_inv {A} (env : Env) (s : Site) (f : State → State * A) st st' a :
  lib_call env s f st = (st', inr a) → raises env s = None ∧ f st = (st', a).
Proof.
  unfold lib_call. destruct (raises env s); [done|].
  destruct (f st). intros [= -> ->]. done.
Qed.

Lemma for_quiet {A} (l : list A) (body : A → M unit) (f : A → State → State) st :
  (∀ x st', x ∈ l → body x st' = (f x st', inr ())) →
  for_ l body st = (foldl (λ st x, f x st) st l, inr ()).
Proof.
  revert st. induction l as [|x l IH]; intros st Hbody; [done|].
  simpl. rewrite (bind_inr _ _ _ _ _ (Hbody x st ltac:(left))).
  apply IH. intros x' st' Hx'. apply Hbody. by right.
Qed.

Lemma for_inr_inv {A} (l : list A) (body : A → M unit) st st' :
  for_ l body st = (st', inr ()) →
  ∀ x, x ∈ l → ∃ st1 st2, body x st1 = (st2, inr ()).
Proof.
  revert st. induction l as [|x l IH]; intros st Hrun x' Hx'.
  { by apply elem_of_nil in Hx'. }
  simpl in Hrun. apply bind_inr_inv in Hrun as (st1 & [] & Hx & Hrest).
  apply elem_of_cons in Hx' as [->|Hx']; [eauto|].
  by apply (IH st1).
Qed.

Lemma set_img_set_img (f g : Image → Image) (st : State) :
  set_img g (set_img f st) = set_img (λ im, g (f im)) st.
Proof. done. Qed.

Lemma set_img_id (st : State) : set_img (λ im, im) st = st.
Proof. by destruct st. Qed.

Lemma foldl_set_img {A} (g : A → Image → Image) (l : list A) (st : State) :
  foldl (λ st x, set_img (g x) st) st l
  = set_img (λ im, foldl (λ im x, g x im) im l) st.
Proof.
  revert st. induction l as [|x l IH]; intros st; simpl.
  - by rewrite set_img_id.
  - by rewrite IH.
Qed.

(** ** The gradient phase *)

Lemma gradient_background_quiet (env : Env) (st : State) :
  (∀ x y, 0 ≤ x < width → 0 ≤ y < height → raises env (site_point x y) = None) →
  gradient_background env st = (set_img background_pixels st, inr ()).
Proof.
  intros Hq. unfold gradient_background, background_pixels, fill_pixels.
  rewrite <- (foldl_set_img
    (λ y im, foldl (λ im x, PIL.point x y (PIL.ink_pixel (gradient_color height y)) im)
                   im (range width))).
  apply for_quiet. intros y st' Hy. apply elem_of_seqZ in Hy.
  rewrite <- (foldl_set_img
    (λ x im, PIL.point x y (PIL.ink_pixel (gradient_color height y)) im)).
  apply for_quiet. intros x st'' Hx. apply elem_of_seqZ in Hx.
  unfold draw_point. rewrite lib_call_quiet by (apply Hq; lia). done.
Qed.

Lemma getpixel_background (x y : Z) :
  0 ≤ x < width → 0 ≤ y < height →
  PIL.getpixel (background_pixels (PIL.new width height)) x y
  = Some (46 + (122 * y) `div` 2778, 7 + (78 * y) `div` 2778, 63 + (184 * y) `div` 2778).
Proof.
  intros Hx Hy. unfold background_pixels.
  assert (PIL.has_size width height (PIL.new width height)) as Hsize
    by (by apply new_size).
  rewrite fill_pixels_rows, getpixel_fill_rows, gradient_pixel by done. done.
Qed.

(** ** Small canvases, computed *)

Example fill_pixels_3x2 :
  fill_pixels 3 2 (PIL.new 3 2)
  = [ [(46, 7, 63); (46, 7, 63); (46, 7, 63)];
      [(107, 46, 155); (107, 46, 155); (107, 46, 155)] ].
Proof. vm_compute. reflexivity. Qed.

Example fill_rows_3x2 : fill_rows 3 2 (PIL.new 3 2) = fill_pixels 3 2 (PIL.new 3 2).
Proof. vm_compute. reflexivity. Qed.

Example range3_curl : range3 0 270 5 !! 53%nat = Some 265 ∧ range3 0 270 5 !! 54%nat = None.
Proof. vm_compute. done. Qed.

Example range3_curl2 : range3 30 200 8 = [30; 38; 46; 54; 62; 70; 78; 86; 94; 102; 110;
  118; 126; 134; 142; 150; 158; 166; 174; 182; 190; 198].
Proof. vm_compute. reflexivity. Qed.



(** C8: the per-pixel loops of lines 11-19 build the canvas that filling
    each row y whole with the colour of that row builds, and every pixel
    (x, y) of it, whichever way it was built, is
    (int(46 + 122 y/height), int(7 + 78 y/height), int(63 + 184 y/height)),
    which the binary64 arithmetic of the source computes exactly:
    (46 + 122 y div height, 7 + 78 y div height, 63 + 184 y div height). *)
Theorem per_pixel_fill_is_per_row_fill (env : Env) (st : State) :
  (∀ x y, 0 ≤ x < width → 0 ≤ y < height → raises env (site_point x y) = None) →
  PIL.has_size width height (img st) →
  gradient_background env st = (set_img (fill_rows width height) st, inr ())
  ∧ ∀ x y, 0 ≤ x < width → 0 ≤ y < height →
      PIL.getpixel (fill_rows width height (img st)) x y
      = Some (PIL.ink_pixel (gradient_color height y))
      ∧ PIL.ink_pixel (gradient_color height y)
        = (46 + (122 * y) `div` height, 7 + (78 * y) `div` height,
           63 + (184 * y) `div` height)
      ∧ PIL.getpixel (img (gradient_background env st).1) x y
        = Some (46 + (122 * y) `div` height, 7 + (78 * y) `div` height,
                63 + (184 * y) `div` height).
Proof.
  intros Hq Hsize.
  assert (gradient_background env st = (set_img (fill_rows width height) st, inr ()))
    as Hrun.
  { rewrite gradient_background_quiet by done.
    unfold set_img, background_pixels. by rewrite fill_pixels_rows. }
  split; [exact Hrun|].
  intros x y Hx Hy. split; [by apply getpixel_fill_rows|].
  split; [by apply gradient_pixel|].
  rewrite Hrun. unfold set_img. cbn [fst img].
  rewrite getpixel_fill_rows by done. f_equal. by apply gradient_pixel.
Qed.

Lemma per_pixel_fill_is_per_row_fill_witness :
  let st := set_img (λ _, PIL.new width height) boot in
  gradient_background quiet st = (set_img (fill_rows width height) st, inr ())
  ∧ ∀ x y, 0 ≤ x < width → 0 ≤ y < height →
      PIL.getpixel (fill_rows width height (img st)) x y
      = Some (PIL.ink_pixel (gradient_color height y))
      ∧ PIL.ink_pixel (gradient_color height y)
        = (46 + (122 * y) `div` height, 7 + (78 * y) `div` height,
           63 + (184 * y) `div` height)
      ∧ PIL.getpixel (img (gradient_background quiet st).1) x y
        = Some (46 + (122 * y) `div` height, 7 + (78 * y) `div` height,
                63 + (184 * y) `div` height).
Proof.
  apply (per_pixel_fill_is_per_row_fill quiet).
  - reflexivity.
  - apply new_size; vm_compute; discriminate.
Defined.

(** ** Painting shapes *)

Lemma getpixel_paint (mask : Z → Z → bool) (c : rgb) (im : Image) (x y : Z) :
  PIL.getpixel (PIL.paint mask c im) x y
  = (λ p, if mask x y then c else p) <$> PIL.getpixel im x y.
Proof.
  unfold PIL.getpixel, PIL.paint.
  destruct ((0 <=? x) && (0 <=? y)) eqn:Hxy; [|done].
  apply andb_true_iff in Hxy as [Hx%Z.leb_le Hy%Z.leb_le].
  rewrite list_lookup_imap.
  destruct (im !! Z.to_nat y) as [row|]; [|done]. simpl.
  rewrite list_lookup_imap, !Z2Nat.id by done. done.
Qed.

Lemma paint_size (mask : Z → Z → bool) (c : rgb) (w h : Z) (im : Image) :
  PIL.has_size w h im → PIL.has_size w h (PIL.paint mask c im).
Proof.
  intros [Hh Hrows]. unfold PIL.paint. split.
  - by rewrite length_imap.
  - rewrite Forall_lookup in Hrows. apply Forall_lookup. intros j row Hj.
    rewrite list_lookup_imap in Hj.
    destruct (im !! j) as [row'|] eqn:Hrow; [|done].
    injection Hj as <-. rewrite length_imap. by eapply Hrows.
Qed.

(** A painted pixel takes the ink whatever was under it. *)
Lemma getpixel_painted (mask : Z → Z → bool) (c : rgb) (im : Image) (x y : Z) :
  is_Some (PIL.getpixel im x y) → mask x y = true →
  PIL.getpixel (PIL.paint mask c im) x y = Some c.
Proof. intros [p Hp] Hm. by rewrite getpixel_paint, Hp, Hm. Qed.

Lemma getpixel_is_Some (w h : Z) (im : Image) (x y : Z) :
  PIL.has_size w h im → 0 ≤ x < w → 0 ≤ y < h → is_Some (PIL.getpixel im x y).
Proof.
  intros [Hh Hrows] Hx Hy. unfold PIL.getpixel.
  replace ((0 <=? x) && (0 <=? y)) with true by (symmetry; apply andb_true_iff; lia).
  destruct (lookup_lt_is_Some_2 im (Z.to_nat y)) as [row Hrow]; [lia|].
  rewrite Hrow. simpl. apply lookup_lt_is_Some_2.
  rewrite Forall_lookup in Hrows. specialize (Hrows _ _ Hrow). simpl in Hrows. lia.
Qed.

(** ** The curls *)

Lemma length_curl_points : length curl_points = 54%nat.
Proof. unfold curl_points. rewrite length_fmap. vm_compute. reflexivity. Qed.

Lemma length_curl2_points : length curl2_points = 22%nat.
Proof. unfold curl2_points. rewrite length_fmap. vm_compute. reflexivity. Qed.

(** C5: the main curl has 54 points and the secondary curl 22, so each
    has at least 3, both guards [len(points) > 2] hold, and both polygons
    are drawn: the branch that skips the fill is never taken. *)
Theorem curls_have_enough_points (env : Env) :
  length curl_points = 54%nat
  ∧ length curl2_points = 22%nat
  ∧ (3 ≤ length curl_points)%nat
  ∧ (3 ≤ length curl2_points)%nat
  ∧ (2 <? Z.of_nat (length curl_points)) = true
  ∧ (2 <? Z.of_nat (length curl2_points)) = true
  ∧ main_curl env = draw_polygon env site_curl curl_points (RGB 114 9 183)
  ∧ secondary_curl env = draw_polygon env site_curl2 curl2_points (RGB 168 85 247).
Proof.
  unfold main_curl, secondary_curl.
  rewrite length_curl_points, length_curl2_points.
  repeat split; lia.
Qed.

Lemma range3_curl_angles (angle : Z) :
  angle ∈ range3 0 270 5 ↔ 0 ≤ angle < 270 ∧ angle `mod` 5 = 0.
Proof.
  unfold range3. change ((270 - 0 + 5 - 1) `div` 5) with 54.
  rewrite list_elem_of_fmap. split.
  - intros (k & -> & Hk). apply elem_of_seqZ in Hk.
    split; [lia|]. rewrite Z.add_0_l. apply Z.mod_mul. lia.
  - intros [Hr Hm]. exists (angle `div` 5). split.
    + pose proof (Z.div_mod angle 5 ltac:(lia)). lia.
    + apply elem_of_seqZ. split; [apply Z.div_pos; lia|].
      simpl. apply Z.div_lt_upper_bound; lia.
Qed.

Lemma main_curl_quiet (env : Env) (st : State) :
  raises env site_curl = None →
  main_curl env st = (set_img (paint_polygon env curl_points (RGB 114 9 183)) st, inr ()).
Proof.
  intros Hq. unfold main_curl. rewrite length_curl_points. simpl.
  unfold draw_polygon. by rewrite lib_call_quiet.
Qed.

Lemma secondary_curl_quiet (env : Env) (st : State) :
  raises env site_curl2 = None →
  secondary_curl env st
  = (set_img (paint_polygon env curl2_points (RGB 168 85 247)) st, inr ()).
Proof.
  intros Hq. unfold secondary_curl. rewrite length_curl2_points. simpl.
  unfold draw_polygon. by rewrite lib_call_quiet.
Qed.

(** Sampling up to 270 degrees included, as the specification words it,
    is not what the script does: [range(0, 270, 5)] stops at 265, one
    vertex short. *)
Lemma main_curl_stops_before_270 :
  270 ∈ claimed_curl_angles
  ∧ 270 ∉ range3 0 270 5
  ∧ last (range3 0 270 5) = Some 265
  ∧ length claimed_curl_points = 55%nat
  ∧ length curl_points = 54%nat
  ∧ curl_points ≠ claimed_curl_points.
Proof.
  split; [|split; [|split; [|split; [|split]]]].
  - unfold claimed_curl_angles. apply list_elem_of_fmap. exists 54.
    split; [reflexivity|]. apply elem_of_seqZ. lia.
  - rewrite range3_curl_angles. lia.
  - vm_compute. reflexivity.
  - unfold claimed_curl_points, claimed_curl_angles. by rewrite !length_fmap, length_seqZ.
  - apply length_curl_points.
  - intros Heq. apply (f_equal length) in Heq. rewrite length_curl_points in Heq.
    unfold claimed_curl_points, claimed_curl_angles in Heq.
    rewrite !length_fmap, length_seqZ in Heq. discriminate.
Qed.

(** The vertex of angle 0 is (722, 1159). *)
Lemma first_curl_vertex : (722, 1159)%R ∈ curl_points.
Proof.
  unfold curl_points. apply list_elem_of_fmap. exists 0. split.
  - simpl. unfold radians. change (IZR (0 * 2)) with 0%R.
    rewrite !Rmult_0_l, sin_0, cos_0. f_equal.
    + change (IZR curl_center_x) with 642%R. lra.
    + change (IZR curl_center_y) with 1159%R. lra.
  - apply range3_curl_angles. done.
Qed.

Lemma first_curl_vertex_inked : vertex_mask curl_points 722 1159 = true.
Proof.
  unfold vertex_mask. apply bool_decide_eq_true, Exists_exists.
  exists (722, 1159)%R. split; [apply first_curl_vertex|].
  unfold holds. cbn [fst snd]. lra.
Qed.

(** C6: the vertices passed to the fill of the main curl are, in order,
    the points (cx + r cos a, cy + r sin a) with r = 80 + 30 sin(2a), for
    the 54 angles a = 0, 5, ..., 265 degrees that [range(0, 270, 5)]
    enumerates (270 itself is not sampled), about the curl centre
    (cx, cy) = (642, 1159): the logo centre
    (width // 2, height // 2 - 200) = (642, 1189) moved up by 30.
    The fill replaces every pixel of the polygon by (114, 9, 183). *)
Theorem main_curl_vertices_and_fill (env : Env) (st : State) :
  raises env site_curl = None →
  (center_x, center_y) = (width `div` 2, height `div` 2 - 200)
  ∧ (center_x, center_y) = (642, 1189)
  ∧ (curl_center_x, curl_center_y) = (center_x, center_y - 30)
  ∧ (∀ angle, angle ∈ range3 0 270 5 ↔ 0 ≤ angle < 270 ∧ angle `mod` 5 = 0)
  ∧ curl_points
    = (λ angle : Z,
         let a := (IZR angle * PI / 180)%R in
         let r := (80 + 30 * sin (2 * a))%R in
         (642 + r * cos a, 1159 + r * sin a)%R) <$> range3 0 270 5
  ∧ main_curl env st
    = (set_img (paint_polygon env curl_points (RGB 114 9 183)) st, inr ())
  ∧ ∀ x y, PIL.getpixel (img (main_curl env st).1) x y
           = (λ p, if polygon_mask env curl_points x y then (114, 9, 183) else p)
               <$> PIL.getpixel (img st) x y.
Proof.
  intros Hq.
  split; [done|]. split; [done|]. split; [done|].
  split; [apply range3_curl_angles|]. split; [|split].
  - unfold curl_points. apply list_fmap_ext. intros _ angle _. simpl.
    unfold radians. rewrite mult_IZR.
    replace (IZR angle * 2 * (PI / 180))%R with (2 * (IZR angle * PI / 180))%R by lra.
    replace (IZR angle * (PI / 180))%R with (IZR angle * PI / 180)%R by lra.
    done.
  - by apply main_curl_quiet.
  - intros x y. rewrite main_curl_quiet by done. simpl.
    unfold paint_polygon. by rewrite getpixel_paint.
Qed.

Lemma main_curl_vertices_and_fill_witness :
  PIL.getpixel (img fresh_canvas) 722 1159 = Some (0, 0, 0)
  ∧ PIL.getpixel (img (main_curl sketch fresh_canvas).1) 722 1159 = Some (114, 9, 183)
  ∧ length curl_points = 54%nat.
Proof.
  assert (PIL.getpixel (img fresh_canvas) 722 1159 = Some (0, 0, 0)) as Hblack.
  { apply getpixel_fresh_canvas; [unfold width|unfold height]; lia. }
  destruct (main_curl_vertices_and_fill sketch fresh_canvas eq_refl)
    as (_ & _ & _ & _ & _ & _ & Hpix).
  split; [exact Hblack|]. split; [|apply length_curl_points].
  rewrite Hpix, Hblack.
  change (polygon_mask sketch curl_points 722 1159) with (vertex_mask curl_points 722 1159).
  rewrite first_curl_vertex_inked. reflexivity.
Defined.

(** ** The logo glyph and the logo disk *)

Lemma curl_vertex_in_disk (u s c : R) :
  (-1 <= u <= 1 → -1 <= s <= 1 → s * s + c * c = 1 →
   let r := 80 + 30 * u in
   (r * c) * (r * c) + (-30 + r * s) * (-30 + r * s) <= 140 * 140)%R.
Proof.
  intros Hu Hs Hunit r.
  assert (50 <= r <= 110)%R as Hr by (unfold r; lra).
  replace ((r * c) * (r * c) + (-30 + r * s) * (-30 + r * s))%R
    with (r * r * (s * s + c * c) - 60 * (r * s) + 900)%R by ring.
  rewrite Hunit.
  assert (r * r <= 110 * 110)%R by nra.
  assert (- (r * s) <= 110)%R by nra.
  lra.
Qed.

Lemma curl2_vertex_in_disk (u s c : R) :
  (-1 <= u <= 1 → -1 <= s <= 1 → -1 <= c <= 1 → s * s + c * c = 1 →
   let r := 50 + 20 * u in
   (60 + r * c) * (60 + r * c) + (-50 + r * s) * (-50 + r * s) <= 26400)%R.
Proof.
  intros Hu Hs Hc Hunit r.
  assert (30 <= r <= 70)%R as Hr by (unfold r; lra).
  replace ((60 + r * c) * (60 + r * c) + (-50 + r * s) * (-50 + r * s))%R
    with (r * r * (s * s + c * c) + 120 * (r * c) - 100 * (r * s) + 6100)%R by ring.
  rewrite Hunit.
  assert (r * r <= 70 * 70)%R by nra.
  assert (r * c <= 70)%R by nra.
  assert (- (r * s) <= 70)%R by nra.
  lra.
Qed.

(** A point within 26400 (squared) of the centre stays inside the disk
    when each coordinate moves by at most one pixel. *)
Lemma slack_in_disk (a b dx dy : R) :
  (a * a + b * b <= 26400 → -1 <= dx <= 1 → -1 <= dy <= 1 →
   (a + dx) * (a + dx) + (b + dy) * (b + dy) < 200 * 200)%R.
Proof.
  intros Hab Hdx Hdy.
  assert (-163 <= a <= 163)%R by nra.
  assert (-163 <= b <= 163)%R by nra.
  replace ((a + dx) * (a + dx) + (b + dy) * (b + dy))%R
    with (a * a + b * b + 2 * (a * dx) + 2 * (b * dy) + dx * dx + dy * dy)%R by ring.
  assert (a * dx <= 163)%R by nra.
  assert (b * dy <= 163)%R by nra.
  assert (dx * dx <= 1)%R by nra.
  assert (dy * dy <= 1)%R by nra.
  lra.
Qed.

Lemma sin_cos_unit (a : R) : (sin a * sin a + cos a * cos a = 1)%R.
Proof. pose proof (sin2_cos2 a) as H. unfold Rsqr in H. exact H. Qed.

(** Both curls stay near the logo centre. *)
Lemma curl_near_centre (p : R * R) :
  p ∈ curl_points →
  ((p.1 - 642) * (p.1 - 642) + (p.2 - 1189) * (p.2 - 1189) <= 140 * 140)%R.
Proof.
  intros Hp. unfold curl_points in Hp.
  apply list_elem_of_fmap in Hp as (angle & -> & _). cbn [fst snd].
  change (IZR curl_center_x) with 642%R. change (IZR curl_center_y) with 1159%R.
  pose proof (curl_vertex_in_disk (sin (radians (IZR (angle * 2))))
                (sin (radians (IZR angle))) (cos (radians (IZR angle)))
                (SIN_bound _) (SIN_bound _) (sin_cos_unit _)) as H.
  cbv zeta in H.
  match goal with |- (?l <= _)%R =>
    replace l with
      ((80 + 30 * sin (radians (IZR (angle * 2)))) * cos (radians (IZR angle))
       * ((80 + 30 * sin (radians (IZR (angle * 2)))) * cos (radians (IZR angle)))
       + (-30 + (80 + 30 * sin (radians (IZR (angle * 2)))) * sin (radians (IZR angle)))
         * (-30 + (80 + 30 * sin (radians (IZR (angle * 2))))
                  * sin (radians (IZR angle))))%R by ring
  end.
  exact H.
Qed.

Lemma curl2_near_centre (p : R * R) :
  p ∈ curl2_points →
  ((p.1 - 642) * (p.1 - 642) + (p.2 - 1189) * (p.2 - 1189) <= 26400)%R.
Proof.
  intros Hp. unfold curl2_points in Hp.
  apply list_elem_of_fmap in Hp as (angle & -> & _). cbn [fst snd].
  change (IZR (curl_center_x + 60)) with 702%R.
  change (IZR (curl_center_y - 20)) with 1139%R.
  pose proof (curl2_vertex_in_disk (sin (radians (IZR angle * 1.5)))
                (sin (radians (IZR angle))) (cos (radians (IZR angle)))
                (SIN_bound _) (SIN_bound _) (COS_bound _) (sin_cos_unit _)) as H.
  cbv zeta in H.
  match goal with |- (?l <= _)%R =>
    replace l with
      ((60 + (50 + 20 * sin (radians (IZR angle * 1.5))) * cos (radians (IZR angle)))
       * (60 + (50 + 20 * sin (radians (IZR angle * 1.5))) * cos (radians (IZR angle)))
       + (-50 + (50 + 20 * sin (radians (IZR angle * 1.5))) * sin (radians (IZR angle)))
         * (-50 + (50 + 20 * sin (radians (IZR angle * 1.5)))
                  * sin (radians (IZR angle))))%R by ring
  end.
  exact H.
Qed.

(** ** The drawing phases when no call raises *)

Lemma draw_ellipse_quiet (env : Env) (s : Site) (box : Box) (color : fill) (st : State) :
  raises env s = None →
  draw_ellipse env s box color st = (set_img (paint_ellipse env box color) st, inr ()).
Proof. intros Hq. unfold draw_ellipse. by rewrite lib_call_quiet. Qed.

Lemma draw_text_quiet (env : Env) (s : Site) xy text (color : fill) (st : State) :
  raises env s = None →
  draw_text env s xy text color st = (set_img (paint_text env xy text color) st, inr ()).
Proof. intros Hq. unfold draw_text. by rewrite lib_call_quiet. Qed.

Lemma lib_effect_quiet (env : Env) (s : Site) (g : State → State) (st : State) :
  raises env s = None → lib_call env s (λ st, (g st, ())) st = (g st, inr ()).
Proof. intros Hq. unfold lib_call. by rewrite Hq. Qed.

Lemma Image_new_quiet (env : Env) (w h : Z) (st : State) :
  raises env site_new = None →
  Image_new env w h st = (set_img (λ _, PIL.new w h) st, inr ()).
Proof. apply lib_effect_quiet. Qed.

Lemma ImageDraw_Draw_quiet (env : Env) (st : State) :
  raises env site_draw = None → ImageDraw_Draw env st = (st, inr ()).
Proof. apply (lib_effect_quiet env site_draw (λ st, st)). Qed.

Lemma logo_disk_quiet (env : Env) (st : State) :
  raises env site_disk = None →
  logo_disk env st = (set_img (disk_pixels env) st, inr ()).
Proof. apply draw_ellipse_quiet. Qed.

Lemma curl_pixels_paint (env : Env) (im : Image) :
  curl_pixels env im = paint_polygon env curl_points (RGB 114 9 183) im.
Proof. unfold curl_pixels. by rewrite length_curl_points. Qed.

Lemma curl2_pixels_paint (env : Env) (im : Image) :
  curl2_pixels env im = paint_polygon env curl2_points (RGB 168 85 247) im.
Proof. unfold curl2_pixels. by rewrite length_curl2_points. Qed.

Lemma enumerate_circles :
  enumerate circles
  = [ (0, (200, 300, 60, RGBA 255 255 255 25));
      (1, (1000, 400, 45, RGBA 255 255 255 35));
      (2, (150, 2200, 75, RGBA 255 255 255 20));
      (3, (1100, 2000, 50, RGBA 255 255 255 30)) ].
Proof. reflexivity. Qed.

Lemma enumerate_dots : enumerate [-45; 0; 45] = [(0, -45); (1, 0); (2, 45)].
Proof. reflexivity. Qed.

Lemma range_3 : range 3 = [0; 1; 2].
Proof. reflexivity. Qed.

Ltac run_with lem :=
  erewrite bind_inr; [|apply lem; auto].

Lemma decorative_circles_quiet (env : Env) (st : State) :
  (∀ i, 0 ≤ i < 4 → raises env (site_circle i) = None) →
  decorative_circles env st = (set_img (circles_pixels env) st, inr ()).
Proof.
  intros Hq. unfold decorative_circles. rewrite enumerate_circles. cbn [for_].
  do 4 (run_with draw_ellipse_quiet; [|apply Hq; lia]).
  reflexivity.
Qed.

Lemma outer_glow_quiet (env : Env) (st : State) :
  (∀ i, 0 ≤ i < 3 → raises env (site_glow i) = None) →
  outer_glow env st = (set_img (glow_pixels env) st, inr ()).
Proof.
  intros Hq. unfold outer_glow. rewrite range_3. cbn [for_].
  do 3 (run_with draw_ellipse_quiet; [|apply Hq; lia]).
  reflexivity.
Qed.

Lemma scissors_quiet (env : Env) (st : State) :
  raises env site_blade1 = None → raises env site_blade2 = None →
  scissors env st = (set_img (scissors_pixels env) st, inr ()).
Proof.
  intros H1 H2. unfold scissors.
  run_with draw_ellipse_quiet. by rewrite draw_ellipse_quiet.
Qed.

(** Lines 7-82 draw the logo canvas, whatever the process held before. *)
Lemma drawing_quiet (env : Env) (st : State) :
  quiet_outside_try env →
  create_splash_screen env st
  = (try_except (text_body env) (text_handler env);; save_outputs env)
      (set_img (λ _, logo_canvas env) st).
Proof.
  intros Hq. unfold create_splash_screen.
  run_with Image_new_quiet.
  run_with ImageDraw_Draw_quiet.
  run_with gradient_background_quiet.
  run_with decorative_circles_quiet.
  run_with outer_glow_quiet.
  run_with logo_disk_quiet.
  run_with main_curl_quiet.
  run_with secondary_curl_quiet.
  run_with scissors_quiet.
  rewrite !set_img_set_img.
  unfold logo_canvas, decorated_canvas.
  by rewrite curl_pixels_paint, curl2_pixels_paint.
Qed.

(** ** The [try] statement *)

Lemma text_try (env : Env) (st : State) :
  raises env site_print_failed = None →
  try_except (text_body env) (text_handler env) st = (after_text env st, inr ()).
Proof.
  intros Hp. unfold try_except, text_body, after_text, text_failure, text_steps.
  rewrite enumerate_dots. cbn [for_ fmap list_fmap app first_raise fst].
  unfold text_handler, print.
  destruct (raises env site_title) as [e|] eqn:H1.
  { erewrite bind_inl by (by apply lib_call_raises).
    rewrite lib_call_quiet by done. simpl. by rewrite set_img_id. }
  run_with draw_text_quiet.
  destruct (raises env site_subtitle) as [e|] eqn:H2.
  { erewrite bind_inl by (by apply lib_call_raises).
    rewrite lib_call_quiet by done. done. }
  run_with draw_text_quiet.
  destruct (raises env (site_dot 0)) as [e|] eqn:H3.
  { erewrite bind_inl by (by apply lib_call_raises).
    rewrite lib_call_quiet by done. done. }
  run_with draw_ellipse_quiet.
  destruct (raises env (site_dot 1)) as [e|] eqn:H4.
  { erewrite bind_inl by (by apply lib_call_raises).
    rewrite lib_call_quiet by done. done. }
  run_with draw_ellipse_quiet.
  destruct (raises env (site_dot 2)) as [e|] eqn:H5.
  { erewrite bind_inl by (by apply lib_call_raises).
    rewrite lib_call_quiet by done. done. }
  run_with draw_ellipse_quiet.
  done.
Qed.

(** ** Saving *)

Lemma save_outputs_quiet (env : Env) (st : State) :
  quiet_outside_try env → save_outputs env st = (saved env st, inr ()).
Proof.
  intros Hq. unfold save_outputs, get_img, Image_save, Image_resize, print, lib_call.
  unfold mbind, M_bind.
  repeat match goal with
         | |- context [raises env ?s] => rewrite (Hq s eq_refl)
         end.
  simpl.
  unfold saved, outputs, save_events, write_file, write_stdout. simpl.
  rewrite <- !app_assoc. done.
Qed.

Lemma Image_save_quiet (env : Env) (im : Image) (name : string) (st : State) :
  raises env (site_save name) = None →
  Image_save env im name st = (write_file name im st, inr ()).
Proof. intros Hq. unfold Image_save. by rewrite Hq. Qed.

Lemma Image_save_raises (env : Env) (im : Image) (name : string) (st : State) (e : exn) :
  raises env (site_save name) = Some e →
  Image_save env im name st = (save_failed (torn env name) st, inl e).
Proof. intros Hr. unfold Image_save. by rewrite Hr. Qed.

(** The run when nothing outside the [try] block raises. *)
Lemma run_quiet_outside (env : Env) (st : State) :
  quiet_outside_try env →
  create_splash_screen env st
  = (saved env (after_text env (set_img (λ _, logo_canvas env) st)), inr ()).
Proof.
  intros Hq. rewrite drawing_quiet by done.
  erewrite bind_inr; [|by apply text_try, Hq].
  by apply save_outputs_quiet.
Qed.

(** ** Sizes *)

Lemma fill_pixels_size (w h : Z) (im : Image) :
  0 ≤ w → PIL.has_size w h im → PIL.has_size w h (fill_pixels w h im).
Proof.
  intros Hw Him. unfold fill_pixels.
  eapply (foldl_ext_invariant (PIL.has_size w h) _ _ _ _ Him).
  - intros a y Ha Hy. apply elem_of_seqZ in Hy.
    rewrite points_fill_row; [by apply fill_row_size|lia|done|apply Ha].
  - done.
Qed.

Lemma paint_ellipse_size (env : Env) (box : Box) (color : fill) (w h : Z) (im : Image) :
  PIL.has_size w h im → PIL.has_size w h (paint_ellipse env box color im).
Proof. apply paint_size. Qed.

Lemma paint_polygon_size (env : Env) pts (color : fill) (w h : Z) (im : Image) :
  PIL.has_size w h im → PIL.has_size w h (paint_polygon env pts color im).
Proof. apply paint_size. Qed.

Lemma decorated_canvas_size (env : Env) : PIL.has_size width height (decorated_canvas env).
Proof.
  unfold decorated_canvas, circles_pixels, circles. cbn [foldl].
  do 4 apply paint_ellipse_size.
  apply fill_pixels_size; [done|]. by apply new_size.
Qed.

Lemma logo_canvas_size (env : Env) : PIL.has_size width height (logo_canvas env).
Proof.
  unfold logo_canvas, scissors_pixels, disk_pixels, glow_pixels.
  rewrite curl_pixels_paint, curl2_pixels_paint, range_3. cbn [foldl].
  do 2 apply paint_ellipse_size. do 2 apply paint_polygon_size.
  do 4 apply paint_ellipse_size. apply decorated_canvas_size.
Qed.

Lemma paint_text_steps_size (env : Env) (k : nat) (w h : Z) (im : Image) :
  PIL.has_size w h im → PIL.has_size w h (paint_text_steps env k im).
Proof.
  unfold paint_text_steps. generalize (take k (text_steps env)). intros l.
  revert im. induction l as [|[[s mask] color] l IH]; intros im Him; [done|].
  simpl. apply IH. by apply paint_size.
Qed.

Lemma image_size_has_size (w h : Z) (im : Image) :
  0 < h → PIL.has_size w h im → image_size im = (w, h).
Proof.
  intros Hh [Hlen Hrows]. unfold image_size.
  destruct im as [|row im]; simpl in *; [lia|].
  apply Forall_cons in Hrows as [Hrow _]. by rewrite Hrow, Hlen.
Qed.

Lemma resized_size (env : Env) (im : Image) (size : Z * Z) :
  0 ≤ size.1 → 0 ≤ size.2 → PIL.has_size size.1 size.2 (resized env im size).
Proof.
  intros Hw Hh. unfold resized. split.
  - rewrite length_fmap, length_seqZ. lia.
  - apply Forall_fmap, Forall_forall. intros y _. simpl.
    rewrite length_fmap, length_seqZ. lia.
Qed.

(** A resized copy is resampled from the whole of its source. *)
Lemma getpixel_resized (env : Env) (im : Image) (w h : Z) (size : Z * Z) (x y : Z) :
  0 < h → PIL.has_size w h im → 0 ≤ x < size.1 → 0 ≤ y < size.2 →
  PIL.getpixel (resized env im size) x y = Some (lanczos env im (0, 0, w, h) size x y).
Proof.
  intros Hh Him Hx Hy. unfold resized, PIL.getpixel.
  rewrite (image_size_has_size w h) by done.
  replace ((0 <=? x) && (0 <=? y)) with true by (symmetry; apply andb_true_iff; lia).
  rewrite list_lookup_fmap, lookup_seqZ_lt by lia. simpl.
  rewrite list_lookup_fmap, lookup_seqZ_lt by lia. simpl.
  do 2 f_equal; lia.
Qed.

(** ** Where the [try] block fails *)

Lemma first_raise_Some (env : Env) (sites : list Site) (k : nat) (e : exn) :
  first_raise env sites = Some (k, e) →
  ∃ s, sites !! k = Some s ∧ raises env s = Some e
       ∧ ∀ j s', (j < k)%nat → sites !! j = Some s' → raises env s' = None.
Proof.
  revert k. induction sites as [|s sites IH]; intros k; [done|]. simpl.
  destruct (raises env s) as [e'|] eqn:Hs.
  - intros [= <- <-]. exists s. repeat split; [done|]. intros; lia.
  - destruct (first_raise env sites) as [[k' e']|]; [|done].
    intros [= <- <-]. destruct (IH k' eq_refl) as (s' & Hk & He & Hbefore).
    exists s'. repeat split; [done..|].
    intros [|j] s'' Hj; simpl; [by intros [= <-]|].
    apply Hbefore. lia.
Qed.

Lemma first_raise_None (env : Env) (sites : list Site) :
  first_raise env sites = None ↔ ∀ s, s ∈ sites → raises env s = None.
Proof.
  induction sites as [|s sites IH]; simpl.
  { split; [|done]. intros _ s Hs. by apply elem_of_nil in Hs. }
  destruct (raises env s) as [e'|] eqn:Hs.
  - split; [done|]. intros H. specialize (H s ltac:(left)). congruence.
  - destruct (first_raise env sites) as [[k' e']|]; simpl.
    + split; [done|]. intros H.
      assert (Some (k', e') = None) as Habs; [|done].
      apply IH. intros s' Hs'. apply H. by right.
    + split; [|done]. intros _ s' [->|Hs']%elem_of_cons; [done|].
      by apply IH.
Qed.

Lemma text_sites (env : Env) :
  (text_steps env).*1.*1 = [site_title; site_subtitle; site_dot 0; site_dot 1; site_dot 2].
Proof. reflexivity. Qed.

Lemma text_failure_lt (env : Env) (k : nat) (e : exn) :
  text_failure env = Some (k, e) → (k < 5)%nat.
Proof.
  intros H. apply first_raise_Some in H as (s & Hk & _).
  apply lookup_lt_Some in Hk. by rewrite text_sites in Hk.
Qed.

(** ** White paint *)

Lemma white_stays (l : list (Site * (Z → Z → bool) * fill)) (im : Image) (x y : Z) :
  Forall (λ step, PIL.ink_pixel step.2 = (255, 255, 255)) l →
  PIL.getpixel im x y = Some (255, 255, 255) →
  PIL.getpixel
    (foldl (λ im '(_, mask, color), PIL.paint mask (PIL.ink_pixel color) im) im l) x y
  = Some (255, 255, 255).
Proof.
  revert im. induction l as [|[[s mask] color] l IH]; intros im Hl Him; [done|].
  apply Forall_cons in Hl as [Hc Hl]. simpl in *. apply IH; [done|].
  rewrite getpixel_paint, Him, Hc. simpl. by destruct (mask x y).
Qed.

Lemma white_inked (l : list (Site * (Z → Z → bool) * fill)) (im : Image) (x y : Z)
    (j : nat) (s : Site) (mask : Z → Z → bool) (color : fill) :
  Forall (λ step, PIL.ink_pixel step.2 = (255, 255, 255)) l →
  is_Some (PIL.getpixel im x y) →
  l !! j = Some (s, mask, color) → mask x y = true →
  PIL.getpixel
    (foldl (λ im '(_, mask, color), PIL.paint mask (PIL.ink_pixel color) im) im l) x y
  = Some (255, 255, 255).
Proof.
  revert im j. induction l as [|[[s' mask'] color'] l IH]; intros im j Hl Him Hj Hm; [done|].
  apply Forall_cons in Hl as [Hc Hl]. simpl in Hc. destruct j as [|j]; simpl in *.
  - injection Hj as -> -> ->. apply white_stays; [done|].
    destruct Him as [p Hp]. by rewrite getpixel_paint, Hp, Hm, Hc.
  - apply (IH _ j); [done| |done..].
    destruct Him as [p Hp]. rewrite getpixel_paint, Hp. by eexists.
Qed.

Lemma text_steps_white (env : Env) :
  Forall (λ step, PIL.ink_pixel step.2 = (255, 255, 255)) (text_steps env).
Proof. unfold text_steps. rewrite enumerate_dots. repeat constructor. Qed.

(** ** The complete run *)

(** What is on the canvas when the script saves it. *)
Lemma after_text_img (env : Env) (st : State) :
  ∃ k, img (after_text env st) = paint_text_steps env k (img st).
Proof.
  unfold after_text. destruct (text_failure env) as [[k e]|]; by eexists.
Qed.

Lemma after_text_trace (env : Env) (st : State) :
  ∃ pre, trace (after_text env st) = trace st ++ pre
         ∧ saved_names pre = []
         ∧ (∀ k e, text_failure env = Some (k, e) →
                   pre = [Printed ("Text rendering failed: " +:+ message e)]).
Proof.
  unfold after_text. destruct (text_failure env) as [[k e]|] eqn:Hf.
  - eexists. split; [done|]. split; [done|]. by intros ?? [= <- <-].
  - exists []. simpl. rewrite app_nil_r. done.
Qed.

Lemma after_text_run (env : Env) (st : State) :
  ∃ k pre,
    img (after_text env st) = paint_text_steps env k (img st)
    ∧ trace (after_text env st) = trace st ++ pre
    ∧ saved_names pre = []
    ∧ (text_failure env = None → k = 5%nat ∧ pre = [])
    ∧ ∀ j e, text_failure env = Some (j, e) →
        k = j ∧ pre = [Printed ("Text rendering failed: " +:+ message e)].
Proof.
  unfold after_text. destruct (text_failure env) as [[k e]|] eqn:Hf.
  - exists k. eexists. split; [done|]. split; [done|]. split; [done|].
    split; [done|]. by intros ?? [= <- <-].
  - exists 5%nat, []. split; [done|]. split; [by rewrite app_nil_r|]. done.
Qed.

Lemma after_text_fs (env : Env) (st : State) : fs (after_text env st) = fs st.
Proof. unfold after_text. by destruct (text_failure env) as [[k e]|]. Qed.

Lemma saved_names_app (t1 t2 : list Event) :
  saved_names (t1 ++ t2) = saved_names t1 ++ saved_names t2.
Proof. apply omap_app. Qed.

(** C1: when no call outside the [try] block raises, the run completes;
    it saves splash.png, adaptive-icon.png, icon.png and
    notification-icon.png, in this order and nothing else; splash.png is
    the canvas the run ends with, which is the logo canvas with the
    completed calls of the [try] block drawn on it and is 1284 by 2778;
    the three others are 1024 by 1024, 512 by 512 and 96 by 96, each
    resampled from the whole of that canvas, the box (0, 0, 1284, 2778);
    the directory is otherwise as it was.  All five calls of the [try]
    block are on the canvas when none of them raises; when one raises,
    those before it are, and the only other line printed is the
    diagnostic. *)
Theorem four_files_in_order (env : Env) (st : State) :
  quiet_outside_try env →
  ∃ k pre st',
    create_splash_screen env st = (st', inr ())
    ∧ img st' = paint_text_steps env k (logo_canvas env)
    ∧ PIL.has_size 1284 2778 (img st')
    ∧ trace st' = trace st ++ pre ++ save_events
    ∧ saved_names (pre ++ save_events)
      = ["splash.png"; "adaptive-icon.png"; "icon.png"; "notification-icon.png"]
    ∧ fs st'
      = <["notification-icon.png" := resized env (img st') (96, 96)]>
          (<["icon.png" := resized env (img st') (512, 512)]>
             (<["adaptive-icon.png" := resized env (img st') (1024, 1024)]>
                (<["splash.png" := img st']> (fs st))))
    ∧ PIL.has_size 1024 1024 (resized env (img st') (1024, 1024))
    ∧ PIL.has_size 512 512 (resized env (img st') (512, 512))
    ∧ PIL.has_size 96 96 (resized env (img st') (96, 96))
    ∧ (∀ size x y, 0 ≤ x < size.1 → 0 ≤ y < size.2 →
        PIL.getpixel (resized env (img st') size) x y
        = Some (lanczos env (img st') (0, 0, 1284, 2778) size x y))
    ∧ (text_failure env = None → k = 5%nat ∧ pre = [])
    ∧ ∀ j e, text_failure env = Some (j, e) →
        k = j ∧ pre = [Printed ("Text rendering failed: " +:+ message e)].
Proof.
  intros Hq.
  set (st0 := set_img (λ _, logo_canvas env) st).
  destruct (after_text_run env st0) as (k & pre & Himg & Htrace & Hnames & Hnone & Hsome).
  assert (PIL.has_size 1284 2778 (img (after_text env st0))) as Hsize.
  { rewrite Himg. apply paint_text_steps_size, logo_canvas_size. }
  exists k, pre, (saved env (after_text env st0)).
  change (img (saved env (after_text env st0))) with (img (after_text env st0)).
  split; [by apply run_quiet_outside|].
  split; [rewrite Himg; unfold st0, set_img; cbn [img]; reflexivity|]. split; [done|].
  split; [simpl; by rewrite Htrace, <- app_assoc|].
  split; [by rewrite saved_names_app, Hnames|].
  split; [simpl; unfold outputs; by rewrite after_text_fs|].
  split; [by apply (resized_size env _ (1024, 1024))|].
  split; [by apply (resized_size env _ (512, 512))|].
  split; [by apply (resized_size env _ (96, 96))|].
  split; [|done].
  intros size x y Hx Hy. by apply getpixel_resized.
Qed.

Lemma quiet_is_quiet : quiet_outside_try quiet.
Proof. intros s _. reflexivity. Qed.

Lemma four_files_in_order_witness :
  ∃ k pre st',
    create_splash_screen quiet boot = (st', inr ())
    ∧ img st' = paint_text_steps quiet k (logo_canvas quiet)
    ∧ PIL.has_size 1284 2778 (img st')
    ∧ trace st' = trace boot ++ pre ++ save_events
    ∧ saved_names (pre ++ save_events)
      = ["splash.png"; "adaptive-icon.png"; "icon.png"; "notification-icon.png"]
    ∧ fs st'
      = <["notification-icon.png" := resized quiet (img st') (96, 96)]>
          (<["icon.png" := resized quiet (img st') (512, 512)]>
             (<["adaptive-icon.png" := resized quiet (img st') (1024, 1024)]>
                (<["splash.png" := img st']> (fs boot))))
    ∧ PIL.has_size 1024 1024 (resized quiet (img st') (1024, 1024))
    ∧ PIL.has_size 512 512 (resized quiet (img st') (512, 512))
    ∧ PIL.has_size 96 96 (resized quiet (img st') (96, 96))
    ∧ (∀ size x y, 0 ≤ x < size.1 → 0 ≤ y < size.2 →
        PIL.getpixel (resized quiet (img st') size) x y
        = Some (lanczos quiet (img st') (0, 0, 1284, 2778) size x y))
    ∧ (text_failure quiet = None → k = 5%nat ∧ pre = [])
    ∧ ∀ j e, text_failure quiet = Some (j, e) →
        k = j ∧ pre = [Printed ("Text rendering failed: " +:+ message e)].
Proof. apply (four_files_in_order quiet boot), quiet_is_quiet. Defined.

(** C10: when a call of the [try] block raises after [k] of its calls
    completed, nothing is undone: the canvas keeps what these [k] calls
    drew, and this canvas is what splash.png holds and what the three
    other files are resampled from.  In particular every pixel a
    completed call inked is white in all of them. *)
Theorem text_step_is_not_atomic (env : Env) (st : State) (k : nat) (e : exn) :
  quiet_outside_try env →
  text_failure env = Some (k, e) →
  ∃ st', create_splash_screen env st = (st', inr ())
    ∧ let canvas := paint_text_steps env k (logo_canvas env) in
      img st' = canvas
      ∧ fs st' !! "splash.png" = Some canvas
      ∧ fs st' !! "adaptive-icon.png" = Some (resized env canvas (1024, 1024))
      ∧ fs st' !! "icon.png" = Some (resized env canvas (512, 512))
      ∧ fs st' !! "notification-icon.png" = Some (resized env canvas (96, 96))
      ∧ ∀ j s mask color x y,
          (j < k)%nat → text_steps env !! j = Some (s, mask, color) →
          mask x y = true → 0 ≤ x < width → 0 ≤ y < height →
          PIL.getpixel canvas x y = Some (255, 255, 255).
Proof.
  intros Hq Hf. eexists. split; [by apply run_quiet_outside|].
  unfold after_text. rewrite Hf. simpl. unfold outputs.
  split; [done|]. split; [by simplify_map_eq|]. split; [by simplify_map_eq|].
  split; [by simplify_map_eq|]. split; [by simplify_map_eq|].
  intros j s mask color x y Hj Hstep Hmask Hx Hy.
  unfold paint_text_steps.
  eapply (white_inked _ _ _ _ j).
  - apply Forall_take, text_steps_white.
  - eapply getpixel_is_Some; [apply logo_canvas_size|done..].
  - by rewrite lookup_take_lt.
  - done.
Qed.

(** ** The decorative circles *)

Lemma drawing_decorated (env : Env) (st : State) :
  quiet_outside_try env →
  (Image_new env width height;; ImageDraw_Draw env;; gradient_background env;;
   decorative_circles env) st
  = (set_img (λ _, decorated_canvas env) st, inr ()).
Proof.
  intros Hq.
  run_with Image_new_quiet.
  run_with ImageDraw_Draw_quiet.
  run_with gradient_background_quiet.
  rewrite decorative_circles_quiet by (intros; by apply Hq).
  rewrite !set_img_set_img. unfold decorated_canvas. reflexivity.
Qed.

(** C7 (as the script behaves): the decorative circles are not
    translucent.  The canvas is an ['RGB'] image drawn without blending,
    so every pixel inside a decorative circle becomes plain white
    (255, 255, 255), whatever the alpha of the fill and whatever the
    gradient under it. *)
Theorem decorative_circles_are_opaque (env : Env) (st : State) (i : nat)
    (x y r : Z) (color : fill) (px py : Z) :
  quiet_outside_try env →
  circles !! i = Some (x, y, r, color) →
  ellipse_mask env (x - r, y - r, x + r, y + r) px py = true →
  0 ≤ px < width → 0 ≤ py < height →
  ∃ st',
    (Image_new env width height;; ImageDraw_Draw env;; gradient_background env;;
     decorative_circles env) st = (st', inr ())
    ∧ PIL.getpixel (img st') px py = Some (255, 255, 255).
Proof.
  intros Hq Hi Hmask Hx Hy. eexists. split; [by apply drawing_decorated|].
  unfold set_img at 1. cbn [img].
  unfold decorated_canvas, circles_pixels, circles. cbn [foldl].
  unfold paint_ellipse. rewrite !getpixel_paint.
  destruct (getpixel_is_Some width height
              (background_pixels (PIL.new width height)) px py) as [p ->];
    [apply fill_pixels_size; [done|by apply new_size]|done..|].
  unfold circles in Hi. simpl.
  destruct i as [|[|[|[|i]]]]; simpl in Hi; [| | | |done];
    injection Hi as <- <- <- <-; cbn in Hmask; rewrite ?Hmask;
    repeat match goal with |- context [if ?b then _ else _] => destruct b end;
    reflexivity.
Qed.

Lemma decorative_circles_are_opaque_witness :
  ∃ st',
    (Image_new quiet width height;; ImageDraw_Draw quiet;; gradient_background quiet;;
     decorative_circles quiet) boot = (st', inr ())
    ∧ PIL.getpixel (img st') 200 300 = Some (255, 255, 255).
Proof.
  apply (decorative_circles_are_opaque quiet boot 0 200 300 60 (RGBA 255 255 255 25));
    [apply quiet_is_quiet|reflexivity|reflexivity|done|done].
Defined.

(** Under the first decorative circle the gradient is (59, 15, 82); white
    at alpha 25 blended over it would be (78, 38, 98). *)
Example under_first_circle :
  PIL.getpixel (background_pixels (PIL.new width height)) 200 300 = Some (59, 15, 82)
  ∧ alpha_blend 25 (255, 255, 255) (59, 15, 82) = (78, 38, 98).
Proof. split; [by rewrite getpixel_background|reflexivity]. Qed.

(** ** Drawing saves nothing *)

Lemma draws_ret {A} (a : A) : draws_only (mret a : M A).
Proof.
  intros st st' r [= <- <-]. split; [done|]. exists []. by rewrite app_nil_r.
Qed.

Lemma draws_bind {A B} (m : M A) (k : A → M B) :
  draws_only m → (∀ a, draws_only (k a)) → draws_only (m ≫= k).
Proof.
  intros Hm Hk st st' r. unfold mbind, M_bind.
  destruct (m st) as [st1 [e|a]] eqn:Hrun.
  - intros [= <- <-]. by eapply Hm.
  - intros Hrest.
    destruct (Hm _ _ _ Hrun) as (Hfs1 & t1 & Ht1 & Hd1).
    destruct (Hk _ _ _ _ Hrest) as (Hfs2 & t2 & Ht2 & Hd2).
    split; [congruence|]. exists (t1 ++ t2).
    split; [by rewrite Ht2, Ht1, app_assoc|]. by apply Forall_app.
Qed.

Lemma draws_for {A} (l : list A) (body : A → M unit) :
  (∀ x, draws_only (body x)) → draws_only (for_ l body).
Proof.
  intros Hb. induction l as [|x l IH]; simpl.
  - apply draws_ret.
  - apply draws_bind; [apply Hb|]. intros _. apply IH.
Qed.

Lemma draws_try_except (body : M unit) (handler : exn → M unit) :
  draws_only body → (∀ e, draws_only (handler e)) → draws_only (try_except body handler).
Proof.
  intros Hb Hh st st' r. unfold try_except.
  destruct (body st) as [st1 [e|[]]] eqn:Hrun.
  - intros Hrest.
    destruct (Hb _ _ _ Hrun) as (Hfs1 & t1 & Ht1 & Hd1).
    destruct (Hh _ _ _ _ Hrest) as (Hfs2 & t2 & Ht2 & Hd2).
    split; [congruence|]. exists (t1 ++ t2).
    split; [by rewrite Ht2, Ht1, app_assoc|]. by apply Forall_app.
  - intros [= <- <-]. by eapply Hb.
Qed.

Lemma draws_lib_set_img (env : Env) (s : Site) (g : Image → Image) :
  draws_only (lib_call env s (λ st, (set_img g st, ()))).
Proof.
  intros st st' r. unfold lib_call.
  destruct (raises env s); intros [= <- <-];
    (split; [done|]); exists []; by rewrite app_nil_r.
Qed.

Lemma draws_lib_pure (env : Env) (s : Site) :
  draws_only (lib_call env s (λ st, (st, ()))).
Proof.
  intros st st' r. unfold lib_call.
  destruct (raises env s); intros [= <- <-];
    (split; [done|]); exists []; by rewrite app_nil_r.
Qed.

Lemma draws_text_handler (env : Env) (e : exn) : draws_only (text_handler env e).
Proof.
  intros st st' r. unfold text_handler, print, lib_call.
  destruct (raises env site_print_failed); intros [= <- <-].
  - split; [done|]. exists []. by rewrite app_nil_r.
  - split; [done|]. eexists. split; [reflexivity|]. repeat constructor. by eexists.
Qed.

Ltac draws_step :=
  lazymatch goal with
  | |- draws_only (for_ _ _) => apply draws_for; intros ?
  | |- draws_only (try_except _ _) => apply draws_try_except; [|intros ?]
  | |- draws_only (mbind _ _) => apply draws_bind; [|intros ?]
  | |- draws_only (text_handler _ _) => apply draws_text_handler
  | |- draws_only (lib_call _ _ (λ st, (set_img _ st, ()))) => apply draws_lib_set_img
  | |- draws_only (lib_call _ _ (λ st, (st, ()))) => apply draws_lib_pure
  | |- draws_only (if ?b then _ else _) => destruct b
  | |- draws_only (match ?p with _ => _ end) => destruct p
  | |- draws_only (mret _) => apply draws_ret
  end.

(** ** Uniformity: the script reads nothing but its own canvas *)

Lemma tear_tear_again (t : option (string * Image)) (w files : gmap string Image) :
  tear t (w ∪ tear t (w ∪ files)) = tear t (w ∪ files).
Proof.
  assert (w ∪ (w ∪ files) = w ∪ files) as Hidem
    by (by rewrite (assoc_L (∪)), (idemp_L (∪))).
  destruct t as [[name junk]|]; simpl; [|exact Hidem].
  destruct ((w ∪ files) !! name) as [old|] eqn:Hold.
  - assert (is_Some ((w ∪ <[name:=junk]> (w ∪ files)) !! name)) as [x ->].
    { destruct (w !! name) as [y|] eqn:Hw.
      - exists y. by apply lookup_union_Some_l.
      - exists junk. rewrite lookup_union_r by done. apply lookup_insert_eq. }
    apply map_eq. intros i. destruct (decide (i = name)) as [->|Hne].
    + by rewrite !lookup_insert_eq.
    + rewrite !lookup_insert_ne by done.
      rewrite lookup_union, lookup_insert_ne by done.
      rewrite <- lookup_union. by rewrite Hidem.
  - rewrite Hidem. by rewrite Hold.
Qed.

Lemma effect_on_effect_on (st : State) im1 w1 ev1 im2 w2 t2 ev2 :
  effect_on (effect_on st im1 w1 None ev1) im2 w2 t2 ev2
  = effect_on st im2 (w2 ∪ w1) t2 (ev1 ++ ev2).
Proof.
  unfold effect_on. simpl. by rewrite (assoc_L (∪)), <- app_assoc.
Qed.

Lemma effect_on_nothing (st : State) : effect_on st (img st) ∅ None [] = st.
Proof.
  destruct st as [im files t c s]. unfold effect_on. simpl.
  by rewrite (left_id_L ∅ (∪)), app_nil_r.
Qed.

Ltac same_canvas :=
  intros [im1 files1 t1 c1 s1] [im2 files2 t2 c2 s2] Himg;
  simpl in Himg; subst im2.

Ltac unchanged :=
  unfold effect_on, set_img, write_stdout, write_file, save_failed; simpl;
  rewrite ?(left_id_L ∅ (∪)), ?app_nil_r, ?insert_union_singleton_l;
  repeat split; first [reflexivity | intros; discriminate | idtac].

Lemma uniform_ret {A} (a : A) : uniform (mret a : M A).
Proof. same_canvas. exists (inr a), im1, ∅, None, []. unchanged. Qed.

Lemma uniform_get_img : uniform get_img.
Proof. same_canvas. exists (inr im1), im1, ∅, None, []. unfold get_img. unchanged. Qed.

Lemma uniform_bind {A B} (m : M A) (k : A → M B) :
  uniform m → (∀ a, uniform (k a)) → uniform (m ≫= k).
Proof.
  intros Hm Hk st1 st2 Himg. unfold mbind, M_bind.
  destruct (Hm st1 st2 Himg) as (r & im & w & t & ev & -> & -> & Ht).
  destruct r as [e|a].
  - exists (inl e), im, w, t, ev. repeat split; [done..|]. intros; discriminate.
  - rewrite (Ht a eq_refl).
    destruct (Hk a (effect_on st1 im w None ev) (effect_on st2 im w None ev) eq_refl)
      as (r' & im' & w' & t' & ev' & -> & -> & Ht').
    exists r', im', (w' ∪ w), t', (ev ++ ev').
    by rewrite !effect_on_effect_on.
Qed.

Lemma uniform_for {A} (l : list A) (body : A → M unit) :
  (∀ x, uniform (body x)) → uniform (for_ l body).
Proof.
  intros Hb. induction l as [|x l IH]; simpl.
  - apply uniform_ret.
  - apply uniform_bind; [apply Hb|]. intros _. apply IH.
Qed.

(** The body of the [try] statement saves nothing, so its handler starts
    from an untouched directory. *)
Lemma uniform_try_except (body : M unit) (handler : exn → M unit) :
  uniform body → draws_only body → (∀ e, uniform (handler e)) →
  uniform (try_except body handler).
Proof.
  intros Hb Hd Hh st1 st2 Himg. unfold try_except.
  destruct (Hb st1 st2 Himg) as (r & im & w & t & ev & H1 & H2 & Ht).
  rewrite H1, H2. destruct r as [e|[]].
  - destruct (Hd _ _ _ H1) as [Hfs1 _]. destruct (Hd _ _ _ H2) as [Hfs2 _].
    assert (effect_on st1 im w t ev = effect_on st1 im ∅ None ev) as ->.
    { unfold effect_on in *. simpl in *. by rewrite Hfs1, (left_id_L ∅ (∪)). }
    assert (effect_on st2 im w t ev = effect_on st2 im ∅ None ev) as ->.
    { unfold effect_on in *. simpl in *. by rewrite Hfs2, (left_id_L ∅ (∪)). }
    destruct (Hh e (effect_on st1 im ∅ None ev) (effect_on st2 im ∅ None ev) eq_refl)
      as (r' & im' & w' & t' & ev' & -> & -> & Ht').
    exists r', im', (w' ∪ ∅), t', (ev ++ ev').
    by rewrite !effect_on_effect_on.
  - exists (inr ()), im, w, t, ev. done.
Qed.

Lemma uniform_lib_set_img (env : Env) (s : Site) (g : Image → Image) :
  uniform (lib_call env s (λ st, (set_img g st, ()))).
Proof.
  same_canvas. unfold lib_call. destruct (raises env s) as [e|].
  - exists (inl e), im1, ∅, None, []. unchanged.
  - exists (inr ()), (g im1), ∅, None, []. unchanged.
Qed.

Lemma uniform_lib_pure (env : Env) {A} (s : Site) (a : A) :
  uniform (lib_call env s (λ st, (st, a))).
Proof.
  same_canvas. unfold lib_call. destruct (raises env s) as [e|].
  - exists (inl e), im1, ∅, None, []. unchanged.
  - exists (inr a), im1, ∅, None, []. unchanged.
Qed.

Lemma uniform_print (env : Env) (s : Site) (line : string) : uniform (print env s line).
Proof.
  same_canvas. unfold print, lib_call. destruct (raises env s) as [e|].
  - exists (inl e), im1, ∅, None, []. unchanged.
  - exists (inr ()), im1, ∅, None, [Printed line]. unchanged.
Qed.

Lemma uniform_Image_save (env : Env) (im : Image) (name : string) :
  uniform (Image_save env im name).
Proof.
  same_canvas. unfold Image_save.
  destruct (raises env (site_save name)) as [e|].
  - exists (inl e), im1, ∅, (torn env name), []. unchanged.
  - exists (inr ()), im1, {[name := im]}, None, [Saved name]. unchanged.
Qed.

Ltac uniform_step :=
  lazymatch goal with
  | |- uniform (for_ _ _) => apply uniform_for; intros ?
  | |- uniform (try_except _ _) =>
      apply uniform_try_except; [|repeat draws_step|intros ?]
  | |- uniform (mbind _ _) => apply uniform_bind; [|intros ?]
  | |- uniform (Image_save _ _ _) => apply uniform_Image_save
  | |- uniform (print _ _ _) => apply uniform_print
  | |- uniform (lib_call _ _ (λ st, (set_img _ st, ()))) => apply uniform_lib_set_img
  | |- uniform (lib_call _ _ (λ st, (st, _))) => apply uniform_lib_pure
  | |- uniform (if ?b then _ else _) => destruct b
  | |- uniform (match ?p with _ => _ end) => destruct p
  | |- uniform get_img => apply uniform_get_img
  | |- uniform (mret _) => apply uniform_ret
  end.

(** Lines 8-125, after [Image.new]. *)
Lemma uniform_after_new (env : Env) :
  uniform
    (ImageDraw_Draw env;; gradient_background env;; decorative_circles env;;
     outer_glow env;; logo_disk env;; main_curl env;; secondary_curl env;;
     scissors env;; try_except (text_body env) (text_handler env);;
     save_outputs env).
Proof.
  unfold ImageDraw_Draw, gradient_background,
    decorative_circles, outer_glow, logo_disk, main_curl, secondary_curl, scissors,
    text_body, text_handler, save_outputs, draw_point, draw_ellipse, draw_polygon,
    draw_text, Image_resize.
  repeat uniform_step.
Qed.

(** From any two processes the script ends the same way with the same
    effect. *)
Lemma uniform_run (env : Env) (st1 st2 : State) :
  ∃ (r : exn + ()) (written : gmap string Image) (t : option (string * Image))
    (events : list Event),
    (create_splash_screen env st1).2 = r
    ∧ (create_splash_screen env st2).2 = r
    ∧ fs (create_splash_screen env st1).1 = tear t (written ∪ fs st1)
    ∧ fs (create_splash_screen env st2).1 = tear t (written ∪ fs st2)
    ∧ trace (create_splash_screen env st1).1 = trace st1 ++ events
    ∧ trace (create_splash_screen env st2).1 = trace st2 ++ events
    ∧ (r = inr () → t = None)
    ∧ (raises env site_new = None →
       img (create_splash_screen env st1).1 = img (create_splash_screen env st2).1).
Proof.
  destruct (raises env site_new) as [e|] eqn:Hnew.
  - assert (∀ st, create_splash_screen env st = (st, inl e)) as Hrun.
    { intros st. unfold create_splash_screen.
      apply bind_inl. unfold Image_new. by apply lib_call_raises. }
    exists (inl e), ∅, None, []. rewrite !Hrun. simpl.
    rewrite !(left_id_L ∅ (∪)), !app_nil_r. repeat split; try reflexivity; done.
  - unfold create_splash_screen.
    rewrite !(bind_inr _ _ _ _ _ (Image_new_quiet env width height _ Hnew)).
    destruct (uniform_after_new env (set_img (λ _, PIL.new width height) st1)
                (set_img (λ _, PIL.new width height) st2) eq_refl)
      as (r & im & w & t & ev & -> & -> & Ht).
    exists r, w, t, ev. cbn [fst snd]. unfold effect_on, set_img. cbn [img fs trace].
    repeat split; try reflexivity. intros ->. by apply (Ht ()).
Qed.

Lemma tear_lookup_written (t : option (string * Image))
    (written files1 files2 : gmap string Image) (name : string) :
  is_Some (written !! name) →
  tear t (written ∪ files1) !! name = tear t (written ∪ files2) !! name.
Proof.
  intros [im Him].
  assert (∀ files, (written ∪ files) !! name = Some im) as Hw
    by (intros files; by apply lookup_union_Some_l).
  destruct t as [[n junk]|]; simpl; [|by rewrite !Hw].
  destruct (decide (n = name)) as [->|Hne].
  - by rewrite !Hw, !lookup_insert_eq.
  - destruct ((written ∪ files1) !! n), ((written ∪ files2) !! n);
      rewrite ?lookup_insert_ne by done; by rewrite !Hw.
Qed.

(** C4: the run does not depend on the process it starts from.  From two
    processes that differ in their files, their earlier output, their
    clock and their random seed, under the same environment, the script
    ends the same way, prints and saves the same events, writes the same
    files with the same pixels, and once [Image.new] has returned leaves
    the same canvas.  The directory is the files written over the
    earlier ones, torn by the save that failed, if one did. *)
Theorem runs_are_deterministic (env : Env) (st1 st2 : State) :
  ∃ (outcome : exn + ()) (written : gmap string Image) (events : list Event)
    (t : option (string * Image)),
    (create_splash_screen env st1).2 = outcome
    ∧ (create_splash_screen env st2).2 = outcome
    ∧ fs (create_splash_screen env st1).1 = tear t (written ∪ fs st1)
    ∧ fs (create_splash_screen env st2).1 = tear t (written ∪ fs st2)
    ∧ trace (create_splash_screen env st1).1 = trace st1 ++ events
    ∧ trace (create_splash_screen env st2).1 = trace st2 ++ events
    ∧ (raises env site_new = None →
       img (create_splash_screen env st1).1 = img (create_splash_screen env st2).1)
    ∧ (outcome = inr () → t = None)
    ∧ ∀ name, is_Some (written !! name) →
        fs (create_splash_screen env st1).1 !! name
        = fs (create_splash_screen env st2).1 !! name.
Proof.
  destruct (uniform_run env st1 st2)
    as (r & w & t & ev & Hr1 & Hr2 & Hfs1 & Hfs2 & Ht1 & Ht2 & Hok & Himg).
  exists r, w, ev, t. repeat split; try assumption.
  intros name Hname. rewrite Hfs1, Hfs2. by apply tear_lookup_written.
Qed.

(** ** Which exceptions leave the script *)

Lemma outside_ret (env : Env) {A} (a : A) : raises_outside env (mret a : M A).
Proof. intros st st' e. discriminate. Qed.

Lemma outside_get_img (env : Env) : raises_outside env get_img.
Proof. intros st st' e. discriminate. Qed.

Lemma outside_bind (env : Env) {A B} (m : M A) (k : A → M B) :
  raises_outside env m → (∀ a, raises_outside env (k a)) →
  raises_outside env (m ≫= k).
Proof.
  intros Hm Hk st st' e. unfold mbind, M_bind.
  destruct (m st) as [st1 [e1|a]] eqn:Hrun.
  - intros [= <- <-]. by eapply Hm.
  - apply Hk.
Qed.

Lemma outside_for (env : Env) {A} (l : list A) (body : A → M unit) :
  (∀ x, raises_outside env (body x)) → raises_outside env (for_ l body).
Proof.
  intros Hb. induction l as [|x l IH]; simpl.
  - apply outside_ret.
  - apply outside_bind; [apply Hb|]. intros _. apply IH.
Qed.

(** What the body of a [try] raises is caught: only the handler counts. *)
Lemma outside_try_except (env : Env) (body : M unit) (handler : exn → M unit) :
  (∀ e, raises_outside env (handler e)) → raises_outside env (try_except body handler).
Proof.
  intros Hh st st' e. unfold try_except.
  destruct (body st) as [st1 [e1|[]]]; [apply Hh|discriminate].
Qed.

Lemma outside_lib_call (env : Env) {A} (s : Site) (f : State → State * A) :
  in_try s = false → raises_outside env (lib_call env s f).
Proof.
  intros Hs st st' e. unfold lib_call.
  destruct (raises env s) as [e'|] eqn:Hr.
  - intros [= <- <-]. eauto.
  - destruct (f st). discriminate.
Qed.

Lemma outside_Image_save (env : Env) (im : Image) (name : string) :
  raises_outside env (Image_save env im name).
Proof.
  intros st st' e. unfold Image_save.
  destruct (raises env (site_save name)) as [e'|] eqn:Hr; [|discriminate].
  intros [= <- <-]. by exists (site_save name).
Qed.

Ltac outside_step env :=
  lazymatch goal with
  | |- raises_outside _ (Image_save _ _ _) => apply outside_Image_save
  | |- raises_outside _ (for_ _ _) => apply outside_for; intros ?
  | |- raises_outside _ (try_except _ _) => apply outside_try_except; intros ?
  | |- raises_outside _ (mbind _ _) => apply outside_bind; [|intros ?]
  | |- raises_outside _ (lib_call _ _ _) => apply outside_lib_call; reflexivity
  | |- raises_outside _ (if ?b then _ else _) => destruct b
  | |- raises_outside _ (match ?p with _ => _ end) => destruct p
  | |- raises_outside _ get_img => apply outside_get_img
  | |- raises_outside _ (mret _) => apply outside_ret
  end.

Lemma outside_create_splash_screen (env : Env) :
  raises_outside env (create_splash_screen env).
Proof.
  unfold create_splash_screen, Image_new, ImageDraw_Draw, gradient_background,
    decorative_circles, outer_glow, logo_disk, main_curl, secondary_curl, scissors,
    text_handler, save_outputs, draw_point, draw_ellipse, draw_polygon,
    Image_resize, print.
  repeat outside_step env.
Qed.

(** ** Which calls a complete run has made *)

Lemma calls_lib_call (env : Env) {A} (s : Site) (f : State → State * A) :
  calls env (lib_call env s f) s.
Proof. intros st st' a Hrun. by apply lib_call_inr_inv in Hrun as [? _]. Qed.

Lemma calls_bind_l (env : Env) {A B} (m : M A) (k : A → M B) (s : Site) :
  calls env m s → calls env (m ≫= k) s.
Proof.
  intros Hm st st' b Hrun. apply bind_inr_inv in Hrun as (st1 & a & Hrun & _).
  by eapply Hm.
Qed.

Lemma calls_bind_r (env : Env) {A B} (m : M A) (k : A → M B) (s : Site) :
  (∀ a, calls env (k a) s) → calls env (m ≫= k) s.
Proof.
  intros Hk st st' b Hrun. apply bind_inr_inv in Hrun as (st1 & a & _ & Hrun).
  by eapply Hk.
Qed.

Lemma calls_for (env : Env) {A} (l : list A) (body : A → M unit) (x : A) (s : Site) :
  x ∈ l → calls env (body x) s → calls env (for_ l body) s.
Proof.
  intros Hx Hb st st' [] Hrun.
  destruct (for_inr_inv _ _ _ _ Hrun x Hx) as (st1 & st2 & Hbody).
  by eapply Hb.
Qed.

Lemma calls_Image_save (env : Env) (im : Image) (name : string) :
  calls env (Image_save env im name) (site_save name).
Proof.
  intros st st' a. unfold Image_save.
  by destruct (raises env (site_save name)).
Qed.

(** Find the call at the site of the goal along the sequence. *)
Ltac find_call :=
  lazymatch goal with
  | |- calls _ (Image_save _ _ ?n) (site_save ?n) => apply calls_Image_save
  | |- calls _ (lib_call _ ?s _) ?s => apply calls_lib_call
  | |- calls _ (mbind _ _) _ =>
      first [ apply calls_bind_l; find_call | apply calls_bind_r; intros ?; find_call ]
  end.

Lemma calls_always (env : Env) (s : Site) :
  always_called s = true → calls env (create_splash_screen env) s.
Proof.
  intros Hs.
  unfold create_splash_screen, Image_new, ImageDraw_Draw, logo_disk, main_curl,
    secondary_curl, scissors, save_outputs, draw_ellipse, draw_polygon,
    Image_resize, print.
  rewrite length_curl_points, length_curl2_points.
  change (2 <? Z.of_nat 54) with true. change (2 <? Z.of_nat 22) with true.
  cbv iota.
  destruct s; simpl in Hs; try discriminate; try find_call.
  - (* draw.point *)
    apply andb_true_iff in Hs as [Hs Hy2]. apply andb_true_iff in Hs as [Hs Hy1].
    apply andb_true_iff in Hs as [Hx1 Hx2].
    do 2 (apply calls_bind_r; intros _). apply calls_bind_l.
    unfold gradient_background.
    apply (calls_for _ _ _ y); [apply elem_of_seqZ; lia|].
    apply (calls_for _ _ _ x); [apply elem_of_seqZ; lia|].
    apply calls_lib_call.
  - (* decorative circles *)
    apply andb_true_iff in Hs as [H0 H4].
    do 3 (apply calls_bind_r; intros _). apply calls_bind_l.
    unfold decorative_circles. rewrite enumerate_circles.
    assert (i = 0 ∨ i = 1 ∨ i = 2 ∨ i = 3) as [->|[->|[->| ->]]] by lia.
    + eapply (calls_for _ _ _ (0, _)); [by left|]. apply calls_lib_call.
    + eapply (calls_for _ _ _ (1, _)); [right; by left|]. apply calls_lib_call.
    + eapply (calls_for _ _ _ (2, _)); [do 2 right; by left|]. apply calls_lib_call.
    + eapply (calls_for _ _ _ (3, _)); [do 3 right; by left|]. apply calls_lib_call.
  - (* outer glow *)
    apply andb_true_iff in Hs as [H0 H3].
    do 4 (apply calls_bind_r; intros _). apply calls_bind_l.
    unfold outer_glow.
    apply (calls_for _ _ _ i); [apply elem_of_seqZ; lia|].
    apply calls_lib_call.
  - (* save *)
    apply bool_decide_eq_true in Hs.
    repeat (apply elem_of_cons in Hs as [->|Hs]; [find_call|]).
    by apply elem_of_nil in Hs.
  - (* resize *)
    apply bool_decide_eq_true in Hs.
    repeat (apply elem_of_cons in Hs as [->|Hs]; [find_call|]).
    by apply elem_of_nil in Hs.
  - (* print *)
    apply bool_decide_eq_true in Hs.
    repeat (apply elem_of_cons in Hs as [->|Hs]; [find_call|]).
    by apply elem_of_nil in Hs.
Qed.

(** A raise at a site outside the [try] block ends the script with an
    exception raised outside the [try] block. *)
Lemma outside_raise_propagates (env : Env) (st : State) (s : Site) (e : exn) :
  always_called s = true → raises env s = Some e →
  ∃ s' e' st', create_splash_screen env st = (st', inl e')
               ∧ in_try s' = false ∧ raises env s' = Some e'.
Proof.
  intros Hs Hr.
  destruct (create_splash_screen env st) as [st' [e'|[]]] eqn:Hrun.
  - destruct (outside_create_splash_screen env _ _ _ Hrun) as (s' & Hs' & Hr').
    by exists s', e', st'.
  - pose proof (calls_always env s Hs _ _ _ Hrun). congruence.
Qed.

Lemma text_site_in_try (s : Site) :
  s ∈ [site_title; site_subtitle; site_dot 0; site_dot 1; site_dot 2] → in_try s = true.
Proof.
  intros Hs. repeat (apply elem_of_cons in Hs as [->|Hs]; [done|]).
  by apply elem_of_nil in Hs.
Qed.

(** C2: when a call of the [try] block raises (title, subtitle or a
    loading dot) and nothing else does, the exception is caught, the line
    "Text rendering failed: ..." is printed with its message, the script
    completes and the four files are written with their sizes; and a
    raise at any call outside the [try] block ends the script with that
    exception uncaught. *)
Theorem text_failure_is_caught (env : Env) (st : State) :
  (quiet_outside_try env →
   (∃ s, s ∈ [site_title; site_subtitle; site_dot 0; site_dot 1; site_dot 2]
         ∧ raises env s ≠ None) →
   ∃ s e canvas st',
     in_try s = true ∧ raises env s = Some e
     ∧ create_splash_screen env st = (st', inr ())
     ∧ trace st'
       = trace st ++ [Printed ("Text rendering failed: " +:+ message e)] ++ save_events
     ∧ fs st'
       = <["notification-icon.png" := resized env canvas (96, 96)]>
           (<["icon.png" := resized env canvas (512, 512)]>
              (<["adaptive-icon.png" := resized env canvas (1024, 1024)]>
                 (<["splash.png" := canvas]> (fs st))))
     ∧ PIL.has_size 1284 2778 canvas
     ∧ PIL.has_size 1024 1024 (resized env canvas (1024, 1024))
     ∧ PIL.has_size 512 512 (resized env canvas (512, 512))
     ∧ PIL.has_size 96 96 (resized env canvas (96, 96)))
  ∧ (∀ s e, always_called s = true → raises env s = Some e →
       ∃ s' e' st', create_splash_screen env st = (st', inl e')
                    ∧ in_try s' = false ∧ raises env s' = Some e').
Proof.
  split; [|intros s e; apply outside_raise_propagates].
  intros Hq (s0 & Hs0 & Hr0).
  destruct (text_failure env) as [[k e]|] eqn:Hf.
  2:{ unfold text_failure in Hf. rewrite text_sites in Hf.
      pose proof (proj1 (first_raise_None env _) Hf s0 Hs0). done. }
  pose proof Hf as Hf'. unfold text_failure in Hf'. rewrite text_sites in Hf'.
  apply first_raise_Some in Hf' as (s & Hk & Hr & _).
  exists s, e, (paint_text_steps env k (logo_canvas env)),
    (saved env (after_text env (set_img (λ _, logo_canvas env) st))).
  split; [eapply text_site_in_try, list_elem_of_lookup_2, Hk|].
  split; [done|]. split; [by apply run_quiet_outside|].
  unfold after_text. rewrite Hf. unfold saved, outputs, write_stdout, set_img.
  cbn [img fs trace]. rewrite <- app_assoc.
  split; [reflexivity|]. split; [reflexivity|].
  split; [apply paint_text_steps_size, logo_canvas_size|].
  split; [by apply (resized_size env _ (1024, 1024))|].
  split; [by apply (resized_size env _ (512, 512))|].
  by apply (resized_size env _ (96, 96)).
Qed.

Lemma no_font_quiet_outside : quiet_outside_try no_font.
Proof. intros s Hs. unfold no_font, studio. simpl. case_decide; by subst. Qed.

Lemma subtitle_fails_quiet_outside : quiet_outside_try subtitle_fails.
Proof. intros s Hs. unfold subtitle_fails, studio. simpl. case_decide; by subst. Qed.

Lemma text_failure_is_caught_witness :
  (∃ s e canvas st',
     in_try s = true ∧ raises no_font s = Some e
     ∧ create_splash_screen no_font boot = (st', inr ())
     ∧ trace st'
       = trace boot ++ [Printed ("Text rendering failed: " +:+ message e)] ++ save_events
     ∧ fs st'
       = <["notification-icon.png" := resized no_font canvas (96, 96)]>
           (<["icon.png" := resized no_font canvas (512, 512)]>
              (<["adaptive-icon.png" := resized no_font canvas (1024, 1024)]>
                 (<["splash.png" := canvas]> (fs boot))))
     ∧ PIL.has_size 1284 2778 canvas
     ∧ PIL.has_size 1024 1024 (resized no_font canvas (1024, 1024))
     ∧ PIL.has_size 512 512 (resized no_font canvas (512, 512))
     ∧ PIL.has_size 96 96 (resized no_font canvas (96, 96)))
  ∧ (∃ s' e' st', create_splash_screen disk_full boot = (st', inl e')
                  ∧ in_try s' = false ∧ raises disk_full s' = Some e').
Proof.
  split.
  - apply (proj1 (text_failure_is_caught no_font boot)).
    + apply no_font_quiet_outside.
    + exists site_title. split; [by left|]. discriminate.
  - apply (proj2 (text_failure_is_caught disk_full boot) (site_save "icon.png")
             (Exception "[Errno 28] No space left on device")); reflexivity.
Defined.

Lemma text_step_is_not_atomic_witness :
  ∃ st', create_splash_screen subtitle_fails boot = (st', inr ())
    ∧ fs st' !! "splash.png"
      = Some (paint_text_steps subtitle_fails 1 (logo_canvas subtitle_fails))
    ∧ PIL.getpixel (paint_text_steps subtitle_fails 1 (logo_canvas subtitle_fails))
        642 1489 = Some (255, 255, 255).
Proof.
  destruct (text_step_is_not_atomic subtitle_fails boot 1 (Exception "unsupported glyph"))
    as (st' & Hrun & _ & Hsplash & _ & _ & _ & Hpixel).
  - apply subtitle_fails_quiet_outside.
  - reflexivity.
  - exists st'. split; [exact Hrun|]. split; [exact Hsplash|].
    apply (Hpixel 0%nat site_title
             (text_mask subtitle_fails (center_x, center_y + 300) "CurlMap")
             (RGB 255 255 255) 642 1489).
    + lia.
    + reflexivity.
    + reflexivity.
    + unfold width. lia.
    + unfold height. lia.
Defined.

(** Before the [try] block the pixel at the anchor of the title shows the
    gradient; the title that was drawn before the subtitle failed turns
    it white in the saved canvas. *)
Example title_anchor_before_text :
  PIL.getpixel (logo_canvas subtitle_fails) 642 1489 = Some (111, 48, 161).
Proof.
  unfold logo_canvas, scissors_pixels, disk_pixels, glow_pixels, decorated_canvas,
    circles_pixels, circles.
  rewrite curl_pixels_paint, curl2_pixels_paint, range_3. cbn [foldl].
  unfold paint_ellipse, paint_polygon. rewrite !getpixel_paint.
  rewrite getpixel_background by done.
  unfold subtitle_fails, studio. cbn [polygon_mask ellipse_mask fmap option_fmap option_map].
  reflexivity.
Qed.

(** ** What two sample runs print and save *)

Example quiet_run_trace :
  trace (create_splash_screen quiet boot).1 = save_events.
Proof.
  rewrite run_quiet_outside by apply quiet_is_quiet.
  unfold saved, after_text.
  replace (text_failure quiet) with (@None (nat * exn)) by reflexivity.
  reflexivity.
Qed.

Example no_font_run_trace :
  trace (create_splash_screen no_font boot).1
  = Printed "Text rendering failed: anchor not supported for non-TrueType fonts"
      :: save_events.
Proof.
  rewrite run_quiet_outside by apply no_font_quiet_outside.
  unfold saved, after_text.
  replace (text_failure no_font)
    with (Some (0%nat, Exception "anchor not supported for non-TrueType fonts"))
    by reflexivity.
  reflexivity.
Qed.

(** * Further properties of the script *)

(** ** The gradient never reaches its end colour *)

(** X1: for every row of the canvas the binary64 computation of lines
    13-16 gives exactly the integer interpolation 46 + (122 y) // 2778,
    7 + (78 y) // 2778, 63 + (184 y) // 2778; no channel is clipped, and
    because the ratio is y / height, never 1, no row has the end colour
    (168, 85, 247): the channels stop at 167, 84 and 246. *)
Theorem gradient_is_exact_and_below_end (y : Z) :
  0 ≤ y < height →
  ∃ r g b,
    gradient_color height y = RGB r g b
    ∧ PIL.ink_pixel (gradient_color height y) = (r, g, b)
    ∧ r = 46 + (122 * y) `div` 2778
    ∧ g = 7 + (78 * y) `div` 2778
    ∧ b = 63 + (184 * y) `div` 2778
    ∧ 46 ≤ r ≤ 167 ∧ 7 ≤ g ≤ 84 ∧ 63 ≤ b ≤ 246.
Proof.
  intros Hy. eexists _, _, _.
  split; [by apply gradient_color_exact|].
  split; [by apply gradient_pixel|].
  do 3 (split; [reflexivity|]).
  unfold height in Hy.
  assert (0 ≤ (122 * y) `div` 2778 ≤ 121).
  { split; [apply Z.div_pos; lia|]. apply Z.lt_succ_r, Z.div_lt_upper_bound; lia. }
  assert (0 ≤ (78 * y) `div` 2778 ≤ 77).
  { split; [apply Z.div_pos; lia|]. apply Z.lt_succ_r, Z.div_lt_upper_bound; lia. }
  assert (0 ≤ (184 * y) `div` 2778 ≤ 183).
  { split; [apply Z.div_pos; lia|]. apply Z.lt_succ_r, Z.div_lt_upper_bound; lia. }
  lia.
Qed.

Lemma gradient_is_exact_and_below_end_witness :
  ∃ r g b,
    gradient_color height 2777 = RGB r g b
    ∧ PIL.ink_pixel (gradient_color height 2777) = (r, g, b)
    ∧ r = 46 + (122 * 2777) `div` 2778
    ∧ g = 7 + (78 * 2777) `div` 2778
    ∧ b = 63 + (184 * 2777) `div` 2778
    ∧ 46 ≤ r ≤ 167 ∧ 7 ≤ g ≤ 84 ∧ 63 ≤ b ≤ 246.
Proof. apply (gradient_is_exact_and_below_end 2777). unfold height. lia. Defined.

(** ** The background covers the whole canvas *)

(** X2: on a canvas of any size, the loops of lines 11-19 overwrite every
    pixel: the result has the same size and does not depend on what the
    image held before. *)
Theorem background_overwrites_everything (w h : Z) (im1 im2 : Image) :
  0 ≤ w → PIL.has_size w h im1 → PIL.has_size w h im2 →
  fill_pixels w h im1 = fill_pixels w h im2
  ∧ PIL.has_size w h (fill_pixels w h im1)
  ∧ ∀ x y, 0 ≤ x < w → 0 ≤ y < h →
      PIL.getpixel (fill_pixels w h im1) x y = Some (PIL.ink_pixel (gradient_color h y)).
Proof.
  intros Hw H1 H2. split; [|split].
  - rewrite !fill_pixels_rows, !fill_rows_closed by done. reflexivity.
  - by apply fill_pixels_size.
  - intros x y Hx Hy. rewrite fill_pixels_rows by done. by apply getpixel_fill_rows.
Qed.

Lemma background_overwrites_everything_witness :
  fill_pixels 3 2 (PIL.new 3 2)
  = fill_pixels 3 2 [[(1, 2, 3); (4, 5, 6); (7, 8, 9)]; [(9, 9, 9); (0, 0, 0); (5, 5, 5)]].
Proof.
  apply (background_overwrites_everything 3 2).
  - lia.
  - apply new_size; lia.
  - split; [reflexivity|]. repeat constructor.
Defined.

(** ** The logo disk under the glow *)

Lemma imap_imap {A B C} (f : nat → B → C) (g : nat → A → B) (l : list A) :
  imap f (imap g l) = imap (λ i x, f i (g i x)) l.
Proof.
  apply list_eq. intros i. rewrite !list_lookup_imap.
  by destruct (l !! i).
Qed.

Lemma paint_paint (m1 m2 : Z → Z → bool) (c1 c2 : rgb) (im : Image) :
  PIL.paint m2 c2 (PIL.paint m1 c1 im)
  = imap (λ j (row : list rgb),
            imap (λ i (p : rgb),
                    if m2 (Z.of_nat i) (Z.of_nat j) then c2
                    else if m1 (Z.of_nat i) (Z.of_nat j) then c1 else p) row) im.
Proof.
  unfold PIL.paint. rewrite imap_imap. apply imap_ext. intros j row _.
  by rewrite imap_imap.
Qed.

(** Painting a shape again in the same colour, under shapes of that
    colour, changes nothing. *)
Lemma paint_absorbed (m m1 m2 : Z → Z → bool) (c : rgb) (im : Image) :
  PIL.paint m c (PIL.paint m2 c (PIL.paint m1 c (PIL.paint m c im)))
  = PIL.paint m2 c (PIL.paint m1 c (PIL.paint m c im)).
Proof.
  rewrite !paint_paint. unfold PIL.paint. rewrite !imap_imap.
  apply imap_ext. intros j row _. rewrite !imap_imap.
  apply imap_ext. intros i p _.
  by destruct (m (Z.of_nat i) (Z.of_nat j)), (m1 (Z.of_nat i) (Z.of_nat j)),
    (m2 (Z.of_nat i) (Z.of_nat j)).
Qed.

(** The white disk is already there when line 46 draws it. *)
Lemma disk_under_glow (env : Env) (im : Image) :
  disk_pixels env (glow_pixels env im) = glow_pixels env im.
Proof.
  unfold disk_pixels, glow_pixels.
  rewrite range_3. cbn [foldl]. unfold paint_ellipse.
  change (PIL.ink_pixel (RGB 255 255 255)) with (255, 255, 255).
  change (PIL.ink_pixel (RGBA 255 255 255 (50 - 0 * 15))) with (255, 255, 255).
  change (PIL.ink_pixel (RGBA 255 255 255 (50 - 1 * 15))) with (255, 255, 255).
  change (PIL.ink_pixel (RGBA 255 255 255 (50 - 2 * 15))) with (255, 255, 255).
  apply (paint_absorbed (ellipse_mask env _)).
Qed.

(** X3: the glow loop of lines 37-43 already paints the disk of radius
    200 in plain white (its first ring has the box of the logo disk and
    alpha is not blended), and the two wider rings are white too; so the
    "main logo circle" of lines 46-49 changes no pixel, whatever the
    rasteriser and the canvas. *)
Theorem logo_disk_changes_nothing (env : Env) (st : State) :
  (∀ i, 0 ≤ i < 3 → raises env (site_glow i) = None) →
  raises env site_disk = None →
  (∀ im, disk_pixels env (glow_pixels env im) = glow_pixels env im)
  ∧ (outer_glow env;; logo_disk env) st = outer_glow env st.
Proof.
  intros Hglow Hdisk.
  pose proof (disk_under_glow env) as Hsame.
  split; [exact Hsame|].
  rewrite (bind_inr _ _ _ _ _ (outer_glow_quiet env st Hglow)).
  rewrite logo_disk_quiet, outer_glow_quiet by done.
  f_equal. destruct st as [im files t c s]. unfold set_img. cbn [img fs trace clock seed].
  by rewrite Hsame.
Qed.

Lemma logo_disk_changes_nothing_witness :
  (outer_glow quiet;; logo_disk quiet) fresh_canvas = outer_glow quiet fresh_canvas
  ∧ PIL.getpixel (img fresh_canvas) 642 1189 = Some (0, 0, 0)
  ∧ PIL.getpixel (img (logo_disk quiet fresh_canvas).1) 642 1189 = Some (255, 255, 255)
  ∧ PIL.getpixel (img (outer_glow quiet fresh_canvas).1) 642 1189 = Some (255, 255, 255)
  ∧ PIL.getpixel (img ((outer_glow quiet;; logo_disk quiet) fresh_canvas).1) 642 1189
    = Some (255, 255, 255).
Proof.
  destruct (logo_disk_changes_nothing quiet fresh_canvas (λ _ _, eq_refl) eq_refl)
    as [_ Hrun].
  assert (PIL.getpixel (img fresh_canvas) 642 1189 = Some (0, 0, 0)) as Hblack.
  { apply getpixel_fresh_canvas; [unfold width|unfold height]; lia. }
  assert (PIL.getpixel (img (outer_glow quiet fresh_canvas).1) 642 1189
          = Some (255, 255, 255)) as Hglow.
  { rewrite outer_glow_quiet by (intros; reflexivity).
    unfold set_img. cbn [fst img]. unfold glow_pixels. rewrite range_3. cbn [foldl].
    unfold paint_ellipse. rewrite !getpixel_paint, Hblack. reflexivity. }
  split; [exact Hrun|]. split; [exact Hblack|]. split; [|split; [exact Hglow|]].
  - rewrite logo_disk_quiet by reflexivity.
    unfold set_img. cbn [fst img]. unfold disk_pixels, paint_ellipse.
    rewrite getpixel_paint, Hblack. reflexivity.
  - rewrite Hrun. exact Hglow.
Defined.

(** ** The secondary curl *)

Lemma range3_curl2_angles (angle : Z) :
  angle ∈ range3 30 200 8 ↔ 30 ≤ angle < 200 ∧ (angle - 30) `mod` 8 = 0.
Proof.
  unfold range3. change ((200 - 30 + 8 - 1) `div` 8) with 22.
  rewrite list_elem_of_fmap. split.
  - intros (k & -> & Hk). apply elem_of_seqZ in Hk.
    split; [lia|]. replace (30 + k * 8 - 30) with (k * 8) by lia.
    apply Z.mod_mul. lia.
  - intros [Hr Hm]. exists ((angle - 30) `div` 8). split.
    + pose proof (Z.div_mod (angle - 30) 8 ltac:(lia)). lia.
    + apply elem_of_seqZ. split; [apply Z.div_pos; lia|].
      simpl. apply Z.div_lt_upper_bound; lia.
Qed.

(** X4: the vertices passed to the fill of the secondary curl (lines
    66-74) are, in order, the points (cx + r cos a, cy + r sin a) with
    r = 50 + 20 sin(1.5 a), for the 22 angles a = 30, 38, ..., 198 degrees
    of [range(30, 200, 8)], about (cx, cy) = (702, 1139): the curl centre
    moved by (+60, -20).  The fill replaces every pixel of the polygon by
    (168, 85, 247), over whatever the main curl drew there. *)
Theorem secondary_curl_vertices_and_fill (env : Env) (st : State) :
  raises env site_curl2 = None →
  (∀ angle, angle ∈ range3 30 200 8 ↔ 30 ≤ angle < 200 ∧ (angle - 30) `mod` 8 = 0)
  ∧ (curl_center_x + 60, curl_center_y - 20) = (702, 1139)
  ∧ curl2_points
    = (λ angle : Z,
         let a := (IZR angle * PI / 180)%R in
         let r := (50 + 20 * sin (1.5 * a))%R in
         (702 + r * cos a, 1139 + r * sin a)%R) <$> range3 30 200 8
  ∧ secondary_curl env st
    = (set_img (paint_polygon env curl2_points (RGB 168 85 247)) st, inr ())
  ∧ ∀ x y, PIL.getpixel (img (secondary_curl env st).1) x y
           = (λ p, if polygon_mask env curl2_points x y then (168, 85, 247) else p)
               <$> PIL.getpixel (img st) x y.
Proof.
  intros Hq. split; [apply range3_curl2_angles|]. split; [done|]. split; [|split].
  - unfold curl2_points. apply list_fmap_ext. intros _ angle _. simpl.
    unfold radians.
    change (IZR (curl_center_x + 60)) with 702%R.
    change (IZR (curl_center_y - 20)) with 1139%R.
    replace (IZR angle * 1.5 * (PI / 180))%R with (1.5 * (IZR angle * PI / 180))%R by lra.
    replace (IZR angle * (PI / 180))%R with (IZR angle * PI / 180)%R by lra.
    done.
  - by apply secondary_curl_quiet.
  - intros x y. rewrite secondary_curl_quiet by done. simpl.
    unfold paint_polygon. by rewrite getpixel_paint.
Qed.

(** Some pixel of the canvas holds a vertex of the secondary curl. *)
Lemma curl2_vertex_pixel :
  ∃ x y, 0 ≤ x < width ∧ 0 ≤ y < height ∧ vertex_mask curl2_points x y = true.
Proof.
  assert (∃ v, v ∈ curl2_points) as [v Hv].
  { eexists. unfold curl2_points. apply list_elem_of_fmap. exists 30.
    split; [reflexivity|]. by apply range3_curl2_angles. }
  pose proof (curl2_near_centre v Hv) as Hnear.
  destruct (base_Int_part v.1) as [Hx1 Hx2]. destruct (base_Int_part v.2) as [Hy1 Hy2].
  assert (-163 <= v.1 - 642 <= 163 ∧ -163 <= v.2 - 1189 <= 163)%R as [Ha Hb].
  { revert Hnear. generalize (v.1 - 642)%R (v.2 - 1189)%R. intros a b Hab.
    split; nra. }
  assert (-1 < Int_part v.1) by (apply lt_IZR; lra).
  assert (Int_part v.1 < 1284) by (apply lt_IZR; lra).
  assert (-1 < Int_part v.2) by (apply lt_IZR; lra).
  assert (Int_part v.2 < 2778) by (apply lt_IZR; lra).
  exists (Int_part v.1), (Int_part v.2). unfold width, height.
  split; [lia|]. split; [lia|].
  unfold vertex_mask. apply bool_decide_eq_true, Exists_exists.
  exists v. split; [done|]. unfold holds. lra.
Qed.

Lemma secondary_curl_vertices_and_fill_witness :
  ∃ x y, 0 ≤ x < width ∧ 0 ≤ y < height
    ∧ PIL.getpixel (img fresh_canvas) x y = Some (0, 0, 0)
    ∧ PIL.getpixel (img (secondary_curl sketch fresh_canvas).1) x y
      = Some (168, 85, 247).
Proof.
  destruct curl2_vertex_pixel as (x & y & Hx & Hy & Hmask).
  exists x, y. split; [exact Hx|]. split; [exact Hy|].
  pose proof (getpixel_fresh_canvas x y Hx Hy) as Hblack.
  split; [exact Hblack|].
  destruct (secondary_curl_vertices_and_fill sketch fresh_canvas eq_refl)
    as (_ & _ & _ & _ & Hpix).
  rewrite Hpix, Hblack.
  change (polygon_mask sketch curl2_points x y) with (vertex_mask curl2_points x y).
  rewrite Hmask. reflexivity.
Defined.

(** ** The save phase, call by call *)

Lemma tear_of_None (env : Env) (n : nat) : tear_of env n None.
Proof. intros name junk. discriminate. Qed.

Lemma tear_of_torn (env : Env) (n : nat) (name : string) (e : exn) :
  output_names !! length (saved_names (take n save_events)) = Some name →
  raises env (site_save name) = Some e →
  tear_of env n (torn env name).
Proof.
  intros Hn Hr name' junk. unfold torn.
  destruct (torn_save env name) as [j|] eqn:Ht; [|discriminate].
  intros [= <- <-]. split; [done|]. split; [by eexists|done].
Qed.

Ltac save_leaf n t :=
  exists n, t; eexists;
  split; [unfold save_state; cbn; rewrite ?app_nil_r; reflexivity|];
  split; [lia|];
  split; [split; [discriminate || done|discriminate || done]|];
  split; [discriminate || done|];
  split; [first [apply tear_of_None | eapply tear_of_torn; [reflexivity|eassumption]]|];
  first [ intros e'; discriminate
        | intros e' [= <-]; eexists; split; [|eassumption]; reflexivity ].

Lemma save_outputs_cases (env : Env) (st : State) :
  ∃ (n : nat) (t : option (string * Image)) (r : exn + ()),
    save_outputs env st = (save_state env st n t, r)
    ∧ (n ≤ 6)%nat
    ∧ (r = inr () ↔ n = 6%nat)
    ∧ (r = inr () → t = None)
    ∧ tear_of env n t
    ∧ ∀ e, r = inl e → ∃ s, in_try s = false ∧ raises env s = Some e.
Proof.
  destruct st as [im files t c s].
  unfold save_outputs, get_img, Image_save, Image_resize, print, mbind, M_bind, lib_call.
  cbn [img].
  repeat match goal with
         | |- context [raises env ?s] => destruct (raises env s) eqn:?
         end;
    unfold write_file, write_stdout, save_failed;
    cbn [fst snd img fs trace clock seed];
    rewrite <- ?app_assoc; cbn [app];
    [ save_leaf 0%nat (torn env "splash.png")
    | save_leaf 1%nat (@None (string * Image))
    | save_leaf 2%nat (@None (string * Image))
    | save_leaf 2%nat (torn env "adaptive-icon.png")
    | save_leaf 3%nat (@None (string * Image))
    | save_leaf 3%nat (torn env "icon.png")
    | save_leaf 4%nat (@None (string * Image))
    | save_leaf 4%nat (torn env "notification-icon.png")
    | save_leaf 5%nat (@None (string * Image))
    | save_leaf 6%nat (@None (string * Image)) ].
Qed.

(** ** The shape of every run *)

Lemma run_shape_bind (env : Env) {A} (m : M A) (k : A → M unit) :
  draws_only m → (∀ a, run_shape env (k a)) → run_shape env (m ≫= k).
Proof.
  intros Hm Hk st st' r. unfold mbind, M_bind.
  destruct (m st) as [st1 [e|a]] eqn:Hrun.
  - intros [= <- <-]. destruct (Hm _ _ _ Hrun) as (Hfs1 & t1 & Ht1 & Hd1).
    exists 0%nat, t1, None. split; [lia|]. split; [exact Hfs1|].
    split; [by rewrite Ht1, app_nil_r|]. split; [done|].
    split; [split; [discriminate|lia]|]. split; [done|]. apply tear_of_None.
  - intros Hrest. destruct (Hm _ _ _ Hrun) as (Hfs1 & t1 & Ht1 & Hd1).
    destruct (Hk _ _ _ _ Hrest) as (n & t2 & t & Hn & Hfs2 & Ht2 & Hd2 & Hr & Hok & Htear).
    exists n, (t1 ++ t2), t. split; [done|]. split; [by rewrite Hfs2, Hfs1|].
    split; [by rewrite Ht2, Ht1, <- !app_assoc|]. split; [by apply Forall_app|done].
Qed.

Lemma run_shape_save (env : Env) : run_shape env (save_outputs env).
Proof.
  intros st st' r Hrun.
  destruct (save_outputs_cases env st) as (n & t & r' & Hsave & Hn & Hr & Hok & Htear & _).
  rewrite Hsave in Hrun. injection Hrun as <- <-.
  exists n, [], t. split; [done|]. split; [done|]. split; [done|]. done.
Qed.

Lemma run_shape_create (env : Env) : run_shape env (create_splash_screen env).
Proof.
  unfold create_splash_screen, Image_new, ImageDraw_Draw, gradient_background,
    decorative_circles, outer_glow, logo_disk, main_curl, secondary_curl, scissors,
    text_body, draw_point, draw_ellipse, draw_polygon, draw_text.
  do 10 (apply run_shape_bind; [repeat draws_step|intros _]).
  apply run_shape_save.
Qed.

Lemma saved_names_diagnostics (t : list Event) :
  Forall (λ ev, ∃ msg, ev = Printed ("Text rendering failed: " +:+ msg)) t →
  saved_names t = [].
Proof.
  induction 1 as [|ev t [msg ->] _ IH]; [done|]. unfold saved_names in *. simpl.
  exact IH.
Qed.

Lemma saved_names_prefix (n : nat) :
  saved_names (take n save_events)
  = take (length (saved_names (take n save_events))) output_names.
Proof. do 7 (destruct n as [|n]; [reflexivity|]). reflexivity. Qed.

Lemma saved_count_le (n : nat) : (length (saved_names (take n save_events)) ≤ 4)%nat.
Proof. do 7 (destruct n as [|n]; [simpl; lia|]). simpl. lia. Qed.

Lemma saved_count_full (n : nat) :
  n = 6%nat → length (saved_names (take n save_events)) = 4%nat.
Proof. by intros ->. Qed.

(** X5: however the run ends (completed or stopped by an exception at
    any call), the working directory holds the first [k] of the four
    outputs, saved in the script's order over what was there and all
    taken from the canvas as it is at the end; [k] is 4 when the run
    completes.  The only other change is what a failed save leaves: when
    the save of the next output raised while writing, that file, if it
    existed before the run, holds what had been written of it. *)
Theorem directory_holds_a_prefix_of_outputs (env : Env) (st : State) :
  ∃ (k : nat) (t : option (string * Image)),
    (k ≤ 4)%nat
    ∧ fs (create_splash_screen env st).1
      = tear t (outputs_prefix env (img (create_splash_screen env st).1) k (fs st))
    ∧ saved_names (drop (length (trace st)) (trace (create_splash_screen env st).1))
      = take k output_names
    ∧ ((create_splash_screen env st).2 = inr () → k = 4%nat ∧ t = None)
    ∧ ∀ name junk, t = Some (name, junk) →
        output_names !! k = Some name
        ∧ is_Some (raises env (site_save name))
        ∧ torn_save env name = Some junk.
Proof.
  destruct (create_splash_screen env st) as [st' r] eqn:Hrun.
  destruct (run_shape_create env _ _ _ Hrun)
    as (n & t0 & t & Hn & Hfs & Ht & Hd & Hr & Hok & Htear).
  exists (length (saved_names (take n save_events))), t. cbn [fst snd].
  split; [apply saved_count_le|]. split; [exact Hfs|]. split; [|split].
  - rewrite Ht, drop_app_length, saved_names_app, (saved_names_diagnostics t0 Hd).
    apply saved_names_prefix.
  - intros Hok'. split; [apply saved_count_full, Hr, Hok'|by apply Hok].
  - exact Htear.
Qed.

Lemma directory_holds_a_prefix_of_outputs_witness :
  let st := write_file "icon.png" [[(9, 9, 9)]] boot in
  ∃ (k : nat) (t : option (string * Image)),
    (k ≤ 4)%nat
    ∧ fs (create_splash_screen disk_full st).1
      = tear t (outputs_prefix disk_full (img (create_splash_screen disk_full st).1) k
                  (fs st))
    ∧ saved_names (drop (length (trace st)) (trace (create_splash_screen disk_full st).1))
      = take k output_names
    ∧ ((create_splash_screen disk_full st).2 = inr () → k = 4%nat ∧ t = None)
    ∧ ∀ name junk, t = Some (name, junk) →
        output_names !! k = Some name
        ∧ is_Some (raises disk_full (site_save name))
        ∧ torn_save disk_full name = Some junk.
Proof.
  intros st. exact (directory_holds_a_prefix_of_outputs disk_full st).
Defined.

Lemma outputs_prefix_other (env : Env) (canvas : Image) (k : nat)
    (files : gmap string Image) (name : string) :
  name ∉ output_names → outputs_prefix env canvas k files !! name = files !! name.
Proof.
  intros Hname. unfold output_names in Hname.
  repeat (apply not_elem_of_cons in Hname as [? Hname]).
  unfold outputs_prefix, output_files.
  destruct k as [|[|[|[|k]]]]; simpl; rewrite ?take_nil; simpl;
    repeat (rewrite lookup_insert_ne by done); reflexivity.
Qed.

Lemma outputs_prefix_keeps (env : Env) (canvas : Image) (k : nat)
    (files : gmap string Image) (name : string) :
  is_Some (files !! name) → is_Some (outputs_prefix env canvas k files !! name).
Proof.
  intros Hsome. unfold outputs_prefix. generalize (take k (output_files env canvas)).
  intros l. revert files Hsome. induction l as [|[n im] l IH]; intros files Hsome; [done|].
  simpl. apply IH. rewrite lookup_insert. case_decide; [by eexists|done].
Qed.

Lemma tear_is_Some (t : option (string * Image)) (files : gmap string Image)
    (name : string) :
  is_Some (tear t files !! name) ↔ is_Some (files !! name).
Proof.
  destruct t as [[n junk]|]; [|done]. unfold tear.
  destruct (files !! n) eqn:Hn; [|done].
  rewrite lookup_insert. case_decide; [|done]. subst n. rewrite Hn.
  split; intros _; by eexists.
Qed.

Lemma tear_lookup_ne (n : string) (junk : Image) (files : gmap string Image)
    (name : string) :
  n ≠ name → tear (Some (n, junk)) files !! name = files !! name.
Proof.
  intros Hne. unfold tear. destruct (files !! n); [|done].
  by rewrite lookup_insert_ne.
Qed.

Lemma tear_of_output (env : Env) (n : nat) (name : string) (junk : Image) :
  tear_of env n (Some (name, junk)) → name ∈ output_names.
Proof.
  intros Ht. destruct (Ht name junk eq_refl) as (Hl & _).
  by apply list_elem_of_lookup_2 in Hl.
Qed.

(** X6: the script touches no file but its four outputs and deletes
    nothing: in every run, completed or not, a file with another name
    keeps its content, and every file that existed still exists. *)
Theorem other_files_are_untouched (env : Env) (st : State) (name : string) :
  (name ∉ output_names →
   fs (create_splash_screen env st).1 !! name = fs st !! name)
  ∧ (is_Some (fs st !! name) → is_Some (fs (create_splash_screen env st).1 !! name)).
Proof.
  destruct (create_splash_screen env st) as [st' r] eqn:Hrun.
  destruct (run_shape_create env _ _ _ Hrun)
    as (n & t0 & t & _ & Hfs & _ & _ & _ & _ & Htear).
  cbn [fst]. rewrite Hfs. split.
  - intros Hname. destruct t as [[n' junk]|]; [|by apply outputs_prefix_other].
    rewrite tear_lookup_ne; [by apply outputs_prefix_other|].
    intros ->. by apply Hname, (tear_of_output env n _ junk).
  - intros Hsome. apply tear_is_Some. by apply outputs_prefix_keeps.
Qed.

Lemma other_files_are_untouched_witness :
  let st := write_file "app.json" [[(1, 2, 3)]] boot in
  fs (create_splash_screen disk_full st).1 !! "app.json" = Some [[(1, 2, 3)]].
Proof.
  intros st.
  rewrite (proj1 (other_files_are_untouched disk_full st "app.json")); [reflexivity|].
  unfold output_names. intros Hin.
  repeat (apply elem_of_cons in Hin as [Hin|Hin]; [discriminate|]).
  by apply elem_of_nil in Hin.
Defined.

Lemma success_not_diagnostic (t : list Event) :
  Forall (λ ev, ∃ msg, ev = Printed ("Text rendering failed: " +:+ msg)) t →
  Printed "All splash screen assets created successfully!" ∉ t.
Proof.
  intros Hd Hin. rewrite Forall_forall in Hd.
  destruct (Hd _ Hin) as [msg Hmsg]. simpl in Hmsg. discriminate.
Qed.

Lemma success_in_prefix (n : nat) :
  (n ≤ 6)%nat →
  Printed "All splash screen assets created successfully!" ∈ take n save_events
  ↔ n = 6%nat.
Proof.
  intros Hn. split.
  - intros Hin. destruct n as [|[|[|[|[|[|[|n]]]]]]]; [..|reflexivity|lia];
      simpl in Hin;
      repeat (apply elem_of_cons in Hin as [Hin|Hin]; [discriminate|]);
      by apply elem_of_nil in Hin.
  - intros ->. simpl. do 5 right. left.
Qed.

(** X7: the line "All splash screen assets created successfully!" is
    printed exactly when the run completes, and then all four files have
    been saved from the final canvas; a run stopped by an exception never
    prints it. *)
Theorem success_is_printed_only_after_all_saves (env : Env) (st : State) :
  (Printed "All splash screen assets created successfully!"
     ∈ drop (length (trace st)) (trace (create_splash_screen env st).1)
   ↔ (create_splash_screen env st).2 = inr ())
  ∧ ((create_splash_screen env st).2 = inr () →
     fs (create_splash_screen env st).1
     = outputs env (img (create_splash_screen env st).1) (fs st)).
Proof.
  destruct (create_splash_screen env st) as [st' r] eqn:Hrun.
  destruct (run_shape_create env _ _ _ Hrun)
    as (n & t0 & t & Hn & Hfs & Ht & Hd & Hr & Hok & _).
  cbn [fst snd]. rewrite Ht, drop_app_length. split.
  - rewrite elem_of_app, (success_in_prefix n Hn), Hr. split; [|by right].
    intros [Hin|Hin]; [|done]. by apply success_not_diagnostic in Hin.
  - intros Hdone. rewrite Hfs, (Hok Hdone). apply Hr in Hdone. by subst n.
Qed.

(** ** The canvas keeps its size *)

Lemma point_size (x y : Z) (c : rgb) (w h : Z) (im : Image) :
  PIL.has_size w h im → PIL.has_size w h (PIL.point x y c im).
Proof.
  intros [Hh Hrows]. unfold PIL.point.
  destruct ((0 <=? x) && (0 <=? y)); [|done]. split.
  - by rewrite length_alter.
  - apply Forall_alter; [done|]. intros row Hrow Hlen. by rewrite length_insert.
Qed.

Lemma size_ret (w h : Z) {A} (a : A) : keeps_size w h (mret a : M A).
Proof. by intros st st' r [= <- <-]. Qed.

Lemma size_get_img (w h : Z) : keeps_size w h get_img.
Proof. by intros st st' r [= <- <-]. Qed.

Lemma size_bind (w h : Z) {A B} (m : M A) (k : A → M B) :
  keeps_size w h m → (∀ a, keeps_size w h (k a)) → keeps_size w h (m ≫= k).
Proof.
  intros Hm Hk st st' r. unfold mbind, M_bind.
  destruct (m st) as [st1 [e|a]] eqn:Hrun.
  - intros [= <- <-]. by eapply Hm.
  - intros Hrest Hsize. eapply Hk; [done|]. by eapply Hm.
Qed.

Lemma size_for (w h : Z) {A} (l : list A) (body : A → M unit) :
  (∀ x, keeps_size w h (body x)) → keeps_size w h (for_ l body).
Proof.
  intros Hb. induction l as [|x l IH]; simpl.
  - apply size_ret.
  - apply size_bind; [apply Hb|]. intros _. apply IH.
Qed.

Lemma size_try_except (w h : Z) (body : M unit) (handler : exn → M unit) :
  keeps_size w h body → (∀ e, keeps_size w h (handler e)) →
  keeps_size w h (try_except body handler).
Proof.
  intros Hb Hh st st' r. unfold try_except.
  destruct (body st) as [st1 [e|[]]] eqn:Hrun.
  - intros Hrest Hsize. eapply Hh; [done|]. by eapply Hb.
  - intros [= <- <-]. by eapply Hb.
Qed.

Lemma size_lib_call (w h : Z) (env : Env) {A} (s : Site) (f : State → State * A) :
  (∀ st, PIL.has_size w h (img st) → PIL.has_size w h (img (f st).1)) →
  keeps_size w h (lib_call env s f).
Proof.
  intros Hf st st' r. unfold lib_call.
  destruct (raises env s).
  - by intros [= <- <-].
  - specialize (Hf st). destruct (f st) as [st1 a]. intros [= <- <-]. exact Hf.
Qed.

Lemma size_Image_save (w h : Z) (env : Env) (im : Image) (name : string) :
  keeps_size w h (Image_save env im name).
Proof.
  intros st st' r. unfold Image_save.
  destruct (raises env (site_save name)); by intros [= <- <-].
Qed.

Ltac size_step :=
  lazymatch goal with
  | |- keeps_size _ _ (Image_save _ _ _) => apply size_Image_save
  | |- keeps_size _ _ (for_ _ _) => apply size_for; intros ?
  | |- keeps_size _ _ (try_except _ _) => apply size_try_except; [|intros ?]
  | |- keeps_size _ _ (mbind _ _) => apply size_bind; [|intros ?]
  | |- keeps_size _ _ (lib_call _ _ _) =>
      apply size_lib_call; intros ?; cbn [fst img set_img write_file write_stdout];
      first [ apply paint_size | apply point_size | idtac ]; trivial
  | |- keeps_size _ _ (if ?b then _ else _) => destruct b
  | |- keeps_size _ _ (match ?p with _ => _ end) => destruct p
  | |- keeps_size _ _ get_img => apply size_get_img
  | |- keeps_size _ _ (mret _) => apply size_ret
  end.

Lemma size_after_new (env : Env) :
  keeps_size width height
    (ImageDraw_Draw env;; gradient_background env;; decorative_circles env;;
     outer_glow env;; logo_disk env;; main_curl env;; secondary_curl env;;
     scissors env;; try_except (text_body env) (text_handler env);;
     save_outputs env).
Proof.
  unfold ImageDraw_Draw, gradient_background,
    decorative_circles, outer_glow, logo_disk, main_curl, secondary_curl, scissors,
    text_body, text_handler, save_outputs, draw_point, draw_ellipse, draw_polygon,
    draw_text, Image_resize, print, paint_ellipse, paint_polygon, paint_text.
  repeat size_step.
Qed.

(** X8: once [Image.new] has returned, the canvas is 1284 by 2778 at the
    end of every run, completed or stopped by an exception at any call:
    no drawing call, whatever the rasterisers do, changes its size. *)
Theorem canvas_keeps_its_size (env : Env) (st : State) :
  raises env site_new = None →
  PIL.has_size 1284 2778 (img (create_splash_screen env st).1).
Proof.
  intros Hnew. unfold create_splash_screen.
  rewrite (bind_inr _ _ _ _ _ (Image_new_quiet env width height st Hnew)).
  match goal with |- PIL.has_size _ _ (img (?m ?s).1) =>
    destruct (m s) as [st' r] eqn:Hrun end.
  cbn [fst]. eapply (size_after_new env _ _ _ Hrun).
  unfold set_img. cbn [img]. by apply new_size.
Qed.

Lemma canvas_keeps_its_size_witness :
  PIL.has_size 1284 2778 (img (create_splash_screen disk_full boot).1).
Proof. apply (canvas_keeps_its_size disk_full boot). reflexivity. Defined.

(** ** Running the script again *)

(** X9: a second run right after a first one, under the same
    environment, ends the same way, repeats the same events and leaves
    the directory exactly as the first run left it: the outputs are
    overwritten with the same content, nothing accumulates. *)
Theorem second_run_changes_nothing (env : Env) (st : State) :
  let st1 := (create_splash_screen env st).1 in
  let st2 := (create_splash_screen env st1).1 in
  fs st2 = fs st1
  ∧ (create_splash_screen env st1).2 = (create_splash_screen env st).2
  ∧ (raises env site_new = None → img st2 = img st1)
  ∧ ∃ events, trace st1 = trace st ++ events ∧ trace st2 = trace st1 ++ events.
Proof.
  intros st1 st2. subst st1 st2.
  destruct (raises env site_new) as [e|] eqn:Hnew.
  - assert (∀ st, create_splash_screen env st = (st, inl e)) as Hrun.
    { intros st0. unfold create_splash_screen.
      apply bind_inl. unfold Image_new. by apply lib_call_raises. }
    rewrite !Hrun. cbn [fst snd].
    split; [reflexivity|]. split; [reflexivity|]. split; [reflexivity|].
    exists []. by rewrite !app_nil_r.
  - destruct (uniform_run env st (create_splash_screen env st).1)
      as (r & written & t & events & Hr1 & Hr2 & Hfs1 & Hfs2 & Ht1 & Ht2 & _ & Himg).
    split; [by rewrite Hfs2, Hfs1, tear_tear_again|].
    split; [by rewrite Hr1, Hr2|]. split; [intros _; symmetry; by apply Himg|].
    by exists events.
Qed.

(** ** Runs that stop after the drawing *)

Lemma drawing_site_outside (s : Site) : drawing_site s = true → in_try s = false.
Proof. by destruct s. Qed.

(** Lines 7-82 when the drawing calls return. *)
Lemma drawing_quiet_sites (env : Env) (st : State) :
  (∀ s, drawing_site s = true → raises env s = None) →
  create_splash_screen env st
  = (try_except (text_body env) (text_handler env);; save_outputs env)
      (set_img (λ _, logo_canvas env) st).
Proof.
  intros Hd. unfold create_splash_screen.
  erewrite bind_inr; [|by apply Image_new_quiet, Hd].
  erewrite bind_inr; [|by apply ImageDraw_Draw_quiet, Hd].
  erewrite bind_inr; [|apply gradient_background_quiet].
  2:{ intros x y Hx Hy. apply Hd. cbn [drawing_site].
      rewrite !andb_true_iff, !Z.leb_le, !Z.ltb_lt. lia. }
  erewrite bind_inr; [|apply decorative_circles_quiet].
  2:{ intros i Hi. apply Hd. cbn [drawing_site].
      rewrite !andb_true_iff, !Z.leb_le, !Z.ltb_lt. lia. }
  erewrite bind_inr; [|apply outer_glow_quiet].
  2:{ intros i Hi. apply Hd. cbn [drawing_site].
      rewrite !andb_true_iff, !Z.leb_le, !Z.ltb_lt. lia. }
  erewrite bind_inr; [|by apply logo_disk_quiet, Hd].
  erewrite bind_inr; [|by apply main_curl_quiet, Hd].
  erewrite bind_inr; [|by apply secondary_curl_quiet, Hd].
  erewrite bind_inr; [|apply scissors_quiet; by apply Hd].
  rewrite !set_img_set_img.
  unfold logo_canvas, decorated_canvas.
  by rewrite curl_pixels_paint, curl2_pixels_paint.
Qed.

(** The [try] statement when the handler's own [print] raises. *)
Lemma text_try_handler_raises (env : Env) (st : State) (k : nat) (e e' : exn) :
  text_failure env = Some (k, e) →
  raises env site_print_failed = Some e' →
  try_except (text_body env) (text_handler env) st
  = (set_img (paint_text_steps env k) st, inl e').
Proof.
  intros Hf Hp. unfold try_except, text_body.
  unfold text_failure, text_steps in Hf. unfold paint_text_steps, text_steps.
  rewrite enumerate_dots in *.
  cbn [for_ fmap list_fmap app first_raise fst] in *.
  unfold text_handler, print.
  destruct (raises env site_title) as [e1|] eqn:H1.
  { injection Hf as <- <-.
    erewrite bind_inl by (by apply lib_call_raises).
    rewrite (lib_call_raises _ _ _ _ _ Hp). simpl. by rewrite set_img_id. }
  run_with draw_text_quiet.
  destruct (raises env site_subtitle) as [e2|] eqn:H2.
  { injection Hf as <- <-.
    erewrite bind_inl by (by apply lib_call_raises).
    by rewrite (lib_call_raises _ _ _ _ _ Hp). }
  run_with draw_text_quiet.
  destruct (raises env (site_dot 0)) as [e3|] eqn:H3.
  { injection Hf as <- <-.
    erewrite bind_inl by (by apply lib_call_raises).
    by rewrite (lib_call_raises _ _ _ _ _ Hp). }
  run_with draw_ellipse_quiet.
  destruct (raises env (site_dot 1)) as [e4|] eqn:H4.
  { injection Hf as <- <-.
    erewrite bind_inl by (by apply lib_call_raises).
    by rewrite (lib_call_raises _ _ _ _ _ Hp). }
  run_with draw_ellipse_quiet.
  destruct (raises env (site_dot 2)) as [e5|] eqn:H5.
  { injection Hf as <- <-.
    erewrite bind_inl by (by apply lib_call_raises).
    by rewrite (lib_call_raises _ _ _ _ _ Hp). }
  discriminate.
Qed.

(** X10: when the [try] block fails after [k] calls and the [print] of
    the handler (line 106) raises too, that second exception leaves the
    script: nothing is printed, no file is saved, and the canvas keeps
    what the [k] calls drew. *)
Theorem handler_failure_stops_the_script (env : Env) (st : State)
    (k : nat) (e e' : exn) :
  (∀ s, drawing_site s = true → raises env s = None) →
  text_failure env = Some (k, e) →
  raises env site_print_failed = Some e' →
  create_splash_screen env st
  = (set_img (λ _, paint_text_steps env k (logo_canvas env)) st, inl e')
  ∧ fs (create_splash_screen env st).1 = fs st
  ∧ trace (create_splash_screen env st).1 = trace st.
Proof.
  intros Hd Hf Hp.
  assert (create_splash_screen env st
          = (set_img (λ _, paint_text_steps env k (logo_canvas env)) st, inl e')) as Hrun.
  { rewrite drawing_quiet_sites by done.
    erewrite bind_inl; [|by eapply text_try_handler_raises].
    by rewrite set_img_set_img. }
  rewrite Hrun. done.
Qed.

Lemma handler_failure_stops_the_script_witness :
  create_splash_screen closed_stdout boot
  = (set_img (λ _, paint_text_steps closed_stdout 0 (logo_canvas closed_stdout)) boot,
     inl (Exception "[Errno 9] Bad file descriptor"))
  ∧ fs (create_splash_screen closed_stdout boot).1 = fs boot
  ∧ trace (create_splash_screen closed_stdout boot).1 = trace boot.
Proof.
  apply (handler_failure_stops_the_script closed_stdout boot 0
           (Exception "anchor not supported for non-TrueType fonts")).
  - intros s Hs. unfold closed_stdout, studio. cbn [raises].
    repeat case_decide; subst; by try discriminate.
  - reflexivity.
  - reflexivity.
Defined.

(** ** A save that fails *)

(** Lines 108-125 when the [k]-th save raises and nothing before it. *)
Lemma save_outputs_fails_at (env : Env) (st : State) (k : nat) (name : string) (e : exn) :
  output_names !! k = Some name →
  (∀ s, in_try s = false → s ≠ site_save name → raises env s = None) →
  raises env (site_save name) = Some e →
  save_outputs env st
  = (save_state env st (events_before_save k) (torn env name), inl e).
Proof.
  intros Hk Hq Hfail. destruct st as [im files t c s].
  unfold save_outputs, get_img, Image_save, Image_resize, print, mbind, M_bind, lib_call.
  cbn [img].
  destruct k as [|[|[|[|k]]]]; simpl in Hk; [| | | |done]; injection Hk as <-;
    repeat match goal with
           | |- context [raises env (site_save ?n)] =>
               first [ rewrite Hfail
                     | rewrite (Hq (site_save n) eq_refl ltac:(discriminate)) ]
           | |- context [raises env ?s] =>
               rewrite (Hq s eq_refl ltac:(discriminate))
           end;
    unfold write_file, write_stdout, save_failed; cbn [fst snd img fs trace clock seed];
    rewrite <- ?app_assoc; cbn [app];
    unfold save_state; cbn; rewrite ?app_nil_r; reflexivity.
Qed.

Lemma outputs_prefix_later (env : Env) (canvas : Image) (files : gmap string Image)
    (k j : nat) (name : string) :
  (k ≤ j)%nat → output_names !! j = Some name →
  outputs_prefix env canvas k files !! name = files !! name.
Proof.
  intros Hkj Hj. unfold outputs_prefix, output_files.
  destruct j as [|[|[|[|j]]]]; simpl in Hj; [| | | |done]; injection Hj as <-;
    destruct k as [|[|[|[|k]]]]; try lia; simpl;
    repeat (rewrite lookup_insert_ne by done); reflexivity.
Qed.

Lemma outputs_prefix_earlier (env : Env) (canvas : Image) (files : gmap string Image)
    (k j : nat) (name : string) (im : Image) :
  (j < k)%nat → output_files env canvas !! j = Some (name, im) →
  outputs_prefix env canvas k files !! name = Some im.
Proof.
  intros Hjk Hj. unfold outputs_prefix. unfold output_files in Hj |- *.
  destruct j as [|[|[|[|j]]]]; simpl in Hj; [| | | |done]; injection Hj as <- <-;
    destruct k as [|[|[|[|k]]]]; try lia; simpl; rewrite ?take_nil; simpl;
    repeat (rewrite lookup_insert_ne by done); by rewrite lookup_insert_eq.
Qed.

Lemma output_names_distinct (i j : nat) (name : string) :
  output_names !! i = Some name → output_names !! j = Some name → i = j.
Proof.
  intros Hi Hj.
  destruct i as [|[|[|[|i]]]]; simpl in Hi; [| | | |done]; injection Hi as <-;
    destruct j as [|[|[|[|j]]]]; simpl in Hj; done.
Qed.

Lemma output_files_names (env : Env) (canvas : Image) (j : nat) (name : string)
    (im : Image) :
  output_files env canvas !! j = Some (name, im) → output_names !! j = Some name.
Proof.
  intros Hj. unfold output_files in Hj.
  destruct j as [|[|[|[|j]]]]; simpl in Hj; [| | | |done]; by injection Hj as <- <-.
Qed.

(** The whole run when the [k]-th save raises and nothing before it. *)
Lemma run_fails_at_save (env : Env) (st : State) (k : nat) (name : string) (e : exn) :
  output_names !! k = Some name →
  (∀ s, in_try s = false → s ≠ site_save name → raises env s = None) →
  raises env (site_save name) = Some e →
  create_splash_screen env st
  = (save_state env (after_text env (set_img (λ _, logo_canvas env) st))
       (events_before_save k) (torn env name), inl e).
Proof.
  intros Hk Hq Hfail.
  rewrite drawing_quiet_sites.
  2:{ intros s Hs. apply Hq; [by apply drawing_site_outside|].
      intros ->. discriminate. }
  erewrite bind_inr; [|apply text_try, Hq; [reflexivity|discriminate]].
  by eapply save_outputs_fails_at.
Qed.

Lemma tear_lookup_eq (name : string) (junk : Image) (files : gmap string Image) :
  tear (Some (name, junk)) files !! name = (λ _, junk) <$> files !! name.
Proof.
  unfold tear. destruct (files !! name) eqn:Hf.
  - by rewrite lookup_insert_eq.
  - by rewrite Hf.
Qed.

(** What a failed run leaves of [icon.png] depends on the directory it
    started in: nothing when there was none, a truncated file when there
    was one. *)
Example torn_file_depends_on_the_directory :
  fs (create_splash_screen disk_full boot).1 !! "icon.png" = None
  ∧ fs (create_splash_screen disk_full old_icon).1 !! "icon.png" = Some [].
Proof.
  assert (∀ st, fs (create_splash_screen disk_full st).1 !! "icon.png"
                = (λ _, []) <$> fs st !! "icon.png") as Hrun.
  { intros st.
    rewrite (run_fails_at_save disk_full st 2 "icon.png"
               (Exception "[Errno 28] No space left on device")).
    - cbn [fst]. unfold save_state. cbn [fs].
      change (torn disk_full "icon.png") with (Some ("icon.png", @nil (list rgb))).
      rewrite tear_lookup_eq. rewrite after_text_fs.
      change (fs (set_img (λ _, logo_canvas disk_full) st)) with (fs st).
      by rewrite (outputs_prefix_later disk_full _ (fs st) _ 2 "icon.png").
    - reflexivity.
    - intros s _ Hs. unfold disk_full, studio. cbn [raises]. by case_decide.
    - reflexivity. }
  rewrite !Hrun. split; reflexivity.
Qed.

(** X11: there is no clean-up after a failed save.  When the [k]-th of
    the four saves raises (and no other call outside the [try] block
    does), the exception leaves the script; the [k] files saved before
    it stay in the directory with the content the script gave them; the
    files after it are as they were before the run.  The file whose save
    failed is not restored: if it did not exist it still does not, and
    if it existed and the save raised while writing, it holds what had
    been written, not its old content; only a save that raised before
    opening its target leaves the old file. *)
Theorem failed_save_keeps_earlier_files (env : Env) (st : State)
    (k : nat) (name : string) (e : exn) :
  output_names !! k = Some name →
  (∀ s, in_try s = false → s ≠ site_save name → raises env s = None) →
  raises env (site_save name) = Some e →
  (create_splash_screen env st).2 = inl e
  ∧ fs (create_splash_screen env st).1
    = tear (torn env name)
        (outputs_prefix env (img (create_splash_screen env st).1) k (fs st))
  ∧ (∀ j earlier im, (j < k)%nat →
      output_files env (img (create_splash_screen env st).1) !! j = Some (earlier, im) →
      fs (create_splash_screen env st).1 !! earlier = Some im)
  ∧ (∀ j later, (k < j)%nat → output_names !! j = Some later →
      fs (create_splash_screen env st).1 !! later = fs st !! later)
  ∧ (fs st !! name = None → fs (create_splash_screen env st).1 !! name = None)
  ∧ (∀ junk, is_Some (fs st !! name) → torn_save env name = Some junk →
      fs (create_splash_screen env st).1 !! name = Some junk)
  ∧ (torn_save env name = None →
      fs (create_splash_screen env st).1 !! name = fs st !! name).
Proof.
  intros Hk Hq Hfail.
  rewrite (run_fails_at_save env st k name e Hk Hq Hfail). cbn [fst snd]. unfold save_state. cbn [img fs].
  rewrite after_text_fs.
  assert (length (saved_names (take (events_before_save k) save_events)) = k) as ->.
  { apply lookup_lt_Some in Hk. simpl in Hk.
    destruct k as [|[|[|[|k]]]]; (reflexivity || lia). }
  change (fs (set_img (λ _, logo_canvas env) st)) with (fs st).
  split; [reflexivity|]. split; [reflexivity|].
  generalize (img (after_text env (set_img (λ _, logo_canvas env) st))).
  intros canvas.
  pose proof (outputs_prefix_later env canvas (fs st) k k name (le_n k) Hk) as Hsame.
  unfold torn. split; [|split; [|split; [|split]]].
  - intros j earlier im Hjk Hj.
    assert (earlier ≠ name) as Hne.
    { intros ->. apply output_files_names in Hj.
      pose proof (output_names_distinct _ _ _ Hj Hk). lia. }
    destruct (torn_save env name) as [junk|]; cbn [fmap option_fmap option_map].
    + rewrite tear_lookup_ne by done. by eapply outputs_prefix_earlier.
    + by eapply outputs_prefix_earlier.
  - intros j later Hkj Hj.
    assert (later ≠ name) as Hne.
    { intros ->. pose proof (output_names_distinct _ _ _ Hj Hk). lia. }
    destruct (torn_save env name) as [junk|]; cbn [fmap option_fmap option_map].
    + rewrite tear_lookup_ne by done. eapply outputs_prefix_later; [|done]. lia.
    + eapply outputs_prefix_later; [|done]. lia.
  - intros Hnone. rewrite <- Hsame in Hnone.
    destruct (torn_save env name) as [junk|]; cbn [fmap option_fmap option_map tear].
    + rewrite Hnone. exact Hnone.
    + exact Hnone.
  - intros junk [old Hold] ->. rewrite <- Hsame in Hold.
    cbn [fmap option_fmap option_map tear]. rewrite Hold. by rewrite lookup_insert_eq.
  - intros ->. cbn [fmap option_fmap option_map tear]. exact Hsame.
Qed.

Lemma failed_save_keeps_earlier_files_witness :
  (create_splash_screen disk_full old_icon).2
  = inl (Exception "[Errno 28] No space left on device")
  ∧ fs (create_splash_screen disk_full old_icon).1 !! "icon.png" = Some []
  ∧ fs old_icon !! "icon.png" = Some [[(1, 2, 3)]]
  ∧ fs (create_splash_screen disk_full old_icon).1 !! "notification-icon.png" = None
  ∧ fs (create_splash_screen disk_full old_icon).1 !! "splash.png"
    = Some (img (create_splash_screen disk_full old_icon).1).
Proof.
  destruct (failed_save_keeps_earlier_files disk_full old_icon 2 "icon.png"
              (Exception "[Errno 28] No space left on device"))
    as (Hout & _ & Hearlier & Hlater & _ & Htorn & _).
  - reflexivity.
  - intros s _ Hs. unfold disk_full, studio. cbn [raises]. by case_decide.
  - reflexivity.
  - split; [exact Hout|]. split; [|split; [|split]].
    + apply Htorn; [by eexists|reflexivity].
    + reflexivity.
    + rewrite (Hlater 3%nat "notification-icon.png"); [reflexivity|lia|reflexivity].
    + apply (Hearlier 0%nat); [lia|reflexivity].
Defined.

Lemma success_is_printed_only_after_all_saves_witness :
  fs (create_splash_screen quiet boot).1
  = outputs quiet (img (create_splash_screen quiet boot).1) (fs boot).
Proof.
  apply (proj2 (success_is_printed_only_after_all_saves quiet boot)).
  by rewrite run_quiet_outside by apply quiet_is_quiet.
Defined.

(** ** The glow *)

(** X12: the "outer glow" is not a glow.  Its three rings (radii 200,
    220, 240; alpha 50, 35, 20) are drawn without blending, so after
    lines 37-49 every pixel inside any of them, the widest included, is
    plain white whatever was under it: the white disk of the logo
    reaches radius 240. *)
Theorem glow_rings_are_opaque (env : Env) (im : Image) (i x y : Z) :
  0 ≤ i < 3 →
  is_Some (PIL.getpixel im x y) →
  ellipse_mask env
    (center_x - (logo_radius + i * 20), center_y - (logo_radius + i * 20),
     center_x + (logo_radius + i * 20), center_y + (logo_radius + i * 20)) x y = true →
  PIL.getpixel (glow_pixels env im) x y = Some (255, 255, 255)
  ∧ PIL.getpixel (disk_pixels env (glow_pixels env im)) x y = Some (255, 255, 255).
Proof.
  intros Hi [p Hp] Hmask.
  assert (PIL.getpixel (glow_pixels env im) x y = Some (255, 255, 255)) as Hglow.
  { unfold glow_pixels. rewrite range_3. cbn [foldl].
    unfold paint_ellipse. rewrite !getpixel_paint, Hp.
    change (PIL.ink_pixel (RGBA 255 255 255 (50 - 0 * 15))) with (255, 255, 255).
    change (PIL.ink_pixel (RGBA 255 255 255 (50 - 1 * 15))) with (255, 255, 255).
    change (PIL.ink_pixel (RGBA 255 255 255 (50 - 2 * 15))) with (255, 255, 255).
    assert (i = 0 ∨ i = 1 ∨ i = 2) as [->|[->| ->]] by lia;
      rewrite Hmask; simpl;
      repeat match goal with |- context [if ?b then _ else _] => destruct b end;
      reflexivity. }
  split; [exact Hglow|].
  by rewrite disk_under_glow.
Qed.

Lemma glow_rings_are_opaque_witness :
  PIL.getpixel (glow_pixels quiet (PIL.new width height)) 872 1189 = Some (255, 255, 255)
  ∧ PIL.getpixel (disk_pixels quiet (glow_pixels quiet (PIL.new width height))) 872 1189
    = Some (255, 255, 255).
Proof.
  apply (glow_rings_are_opaque quiet (PIL.new width height) 2 872 1189).
  - lia.
  - apply (getpixel_is_Some width height); [by apply new_size|unfold width; lia|
      unfold height; lia].
  - reflexivity.
Defined.

(** ** The logo glyph on the logo disk *)

(** A vertex stays inside the disk when each coordinate moves by a pixel. *)
Lemma vertex_with_slack (p : R * R) (dx dy : R) :
  ((p.1 - 642) * (p.1 - 642) + (p.2 - 1189) * (p.2 - 1189) <= 26400)%R →
  (-1 <= dx <= 1)%R → (-1 <= dy <= 1)%R →
  (dist2_logo (p.1 + dx, p.2 + dy) < IZR logo_radius * IZR logo_radius)%R.
Proof.
  intros Hp Hdx Hdy. unfold dist2_logo. cbn [fst snd].
  change (IZR logo_radius) with 200%R.
  change (IZR center_x) with 642%R. change (IZR center_y) with 1189%R.
  replace (p.1 + dx - 642)%R with ((p.1 - 642) + dx)%R by ring.
  replace (p.2 + dy - 1189)%R with ((p.2 - 1189) + dy)%R by ring.
  by apply slack_in_disk.
Qed.

Lemma glow_canvas_size (env : Env) :
  PIL.has_size width height (glow_pixels env (decorated_canvas env)).
Proof.
  unfold glow_pixels. rewrite range_3. cbn [foldl].
  do 3 apply paint_ellipse_size. apply decorated_canvas_size.
Qed.

(** With sound rasterisers, every pixel of the glyph is a pixel of the
    logo disk. *)
Lemma glyph_pixel_in_disk (env : Env) (x y : Z) :
  sound_rasteriser env → glyph_pixel env x y → ellipse_mask env disk_box x y = true.
Proof.
  intros [Hbox Hcirc Hpoly] Hg.
  assert ((x - 642) * (x - 642) + (y - 1189) * (y - 1189) ≤ 199 * 199 →
          ellipse_mask env disk_box x y = true) as Hdisk.
  { intros Hd. apply (Hcirc 642 1189 200 x y); lia. }
  apply Hdisk. destruct Hg as [Hg|[Hg|[Hg|Hg]]].
  - pose proof (Hpoly curl_points 642 1189 140 x y ltac:(lra)
                  curl_near_centre Hg)%R as Hd.
    assert ((x - 642) * (x - 642) + (y - 1189) * (y - 1189) ≤ 142 * 142); [|lia].
    apply le_IZR. rewrite plus_IZR, !mult_IZR, !minus_IZR. lra.
  - assert (∀ p, p ∈ curl2_points →
              ((p.1 - 642) * (p.1 - 642) + (p.2 - 1189) * (p.2 - 1189) <= 163 * 163)%R)
      as Hverts.
    { intros p Hp. pose proof (curl2_near_centre p Hp). lra. }
    pose proof (Hpoly curl2_points 642 1189 163 x y ltac:(lra) Hverts Hg)%R as Hd.
    assert ((x - 642) * (x - 642) + (y - 1189) * (y - 1189) ≤ 165 * 165); [|lia].
    apply le_IZR. rewrite plus_IZR, !mult_IZR, !minus_IZR. lra.
  - change blade1_box with (707, 1254, 737, 1284) in Hg.
    apply Hbox in Hg; [|lia..]. nia.
  - change blade2_box with (742, 1254, 772, 1284) in Hg.
    apply Hbox in Hg; [|lia..]. nia.
Qed.

(** The sample rasterisers are sound. *)
Lemma sketch_is_sound : sound_rasteriser sketch.
Proof.
  split.
  - intros x0 y0 x1 y1 x y Hw Hh Hm. cbn [ellipse_mask sketch] in Hm.
    unfold ideal_ellipse in Hm. apply Z.leb_le in Hm.
    set (X := 2 * x - x0 - x1) in *. set (Y := 2 * y - y0 - y1) in *.
    set (w := x1 - x0) in *. set (h := y1 - y0) in *.
    assert (0 < w) by (unfold w; lia). assert (0 < h) by (unfold h; lia).
    assert (X * X ≤ w * w) by nia.
    assert (Y * Y ≤ h * h) by nia.
    assert (- w ≤ X ≤ w) by nia.
    assert (- h ≤ Y ≤ h) by nia.
    unfold X, Y, w, h in *. lia.
  - intros cx cy r x y Hr Hd. cbn [ellipse_mask sketch].
    unfold ideal_ellipse. apply Z.leb_le.
    replace (cx + r - (cx - r)) with (2 * r) by lia.
    replace (cy + r - (cy - r)) with (2 * r) by lia.
    replace (2 * x - (cx - r) - (cx + r)) with (2 * (x - cx)) by lia.
    replace (2 * y - (cy - r) - (cy + r)) with (2 * (y - cy)) by lia.
    set (a := x - cx) in *. set (b := y - cy) in *.
    assert (a * a + b * b ≤ r * r) by nia.
    nia.
  - intros pts cx cy rho x y Hrho Hverts Hm. cbn [polygon_mask sketch] in Hm.
    unfold vertex_mask in Hm. apply bool_decide_eq_true, Exists_exists in Hm.
    destruct Hm as (v & Hv & [Hx Hy]). specialize (Hverts v Hv).
    set (a := (v.1 - cx)%R) in *. set (b := (v.2 - cy)%R) in *.
    set (dx := (IZR x - v.1)%R). set (dy := (IZR y - v.2)%R).
    replace (IZR x - cx)%R with (a + dx)%R by (unfold a, dx; ring).
    replace (IZR y - cy)%R with (b + dy)%R by (unfold b, dy; ring).
    assert (-1 <= dx <= 0)%R by (unfold dx; lra).
    assert (-1 <= dy <= 0)%R by (unfold dy; lra).
    assert (- rho <= a <= rho)%R by nra.
    assert (- rho <= b <= rho)%R by nra.
    assert (a * dx <= rho)%R by nra.
    assert (b * dy <= rho)%R by nra.
    assert (dx * dx <= 1)%R by nra.
    assert (dy * dy <= 1)%R by nra.
    nra.
Qed.

(** C9: every vertex of the main curl, every vertex of the secondary curl
    and every point of the boxes of the two scissors blades (so every
    point of the two ellipses) is at distance less than 200 from the logo
    centre (width // 2, height // 2 - 200): strictly inside the logo
    disk.  For the vertices this still holds when each coordinate is
    moved by up to one pixel, which covers their rounding.  So, with
    rasterisers that keep a shape where its outline is, every pixel the
    glyph inks is a pixel of the disk and was white when the glyph was
    drawn, and outside the disk the glyph changes no pixel of the
    canvas. *)
Theorem logo_glyph_inside_disk (env : Env) :
  (∀ p dx dy, p ∈ curl_points → (-1 <= dx <= 1)%R → (-1 <= dy <= 1)%R →
     (dist2_logo (p.1 + dx, p.2 + dy) < IZR logo_radius * IZR logo_radius)%R)
  ∧ (∀ p dx dy, p ∈ curl2_points → (-1 <= dx <= 1)%R → (-1 <= dy <= 1)%R →
     (dist2_logo (p.1 + dx, p.2 + dy) < IZR logo_radius * IZR logo_radius)%R)
  ∧ (∀ p, p ∈ curl_points ∨ p ∈ curl2_points →
     (dist2_logo p < IZR logo_radius * IZR logo_radius)%R)
  ∧ (∀ p, in_box blade1_box p → (dist2_logo p < IZR logo_radius * IZR logo_radius)%R)
  ∧ (∀ p, in_box blade2_box p → (dist2_logo p < IZR logo_radius * IZR logo_radius)%R)
  ∧ (sound_rasteriser env →
     (∀ x y, glyph_pixel env x y → ellipse_mask env disk_box x y = true)
     ∧ (∀ x y, 0 ≤ x < width → 0 ≤ y < height → glyph_pixel env x y →
          PIL.getpixel (disk_pixels env (glow_pixels env (decorated_canvas env))) x y
          = Some (255, 255, 255))
     ∧ (∀ x y, ellipse_mask env disk_box x y = false →
          PIL.getpixel (logo_canvas env) x y
          = PIL.getpixel (disk_pixels env (glow_pixels env (decorated_canvas env))) x y)).
Proof.
  assert (Hcurl : ∀ p dx dy, p ∈ curl_points → (-1 <= dx <= 1)%R → (-1 <= dy <= 1)%R →
     (dist2_logo (p.1 + dx, p.2 + dy) < IZR logo_radius * IZR logo_radius)%R).
  { intros p dx dy Hp Hdx Hdy. apply vertex_with_slack; [|done..].
    pose proof (curl_near_centre p Hp). lra. }
  assert (Hcurl2 : ∀ p dx dy, p ∈ curl2_points → (-1 <= dx <= 1)%R → (-1 <= dy <= 1)%R →
     (dist2_logo (p.1 + dx, p.2 + dy) < IZR logo_radius * IZR logo_radius)%R).
  { intros p dx dy Hp Hdx Hdy. apply vertex_with_slack; [|done..].
    by apply curl2_near_centre. }
  split; [exact Hcurl|]. split; [exact Hcurl2|]. split; [|split; [|split]].
  - intros [x y] Hp.
    replace (x, y) with ((x, y).1 + 0, (x, y).2 + 0)%R
      by (cbn [fst snd]; f_equal; ring).
    destruct Hp as [Hp|Hp]; [apply Hcurl|apply Hcurl2]; first [exact Hp | lra].
  - intros [x y]. unfold in_box, blade1_box, dist2_logo. cbn [fst snd].
    change (IZR logo_radius) with 200%R.
    change (IZR center_x) with 642%R. change (IZR center_y) with 1189%R.
    change (IZR (scissors_x - 15)) with 707%R. change (IZR (scissors_x + 15)) with 737%R.
    change (IZR (scissors_y - 15)) with 1254%R. change (IZR (scissors_y + 15)) with 1284%R.
    intros [Hx Hy]. nra.
  - intros [x y]. unfold in_box, blade2_box, dist2_logo. cbn [fst snd].
    change (IZR logo_radius) with 200%R.
    change (IZR center_x) with 642%R. change (IZR center_y) with 1189%R.
    change (IZR (scissors_x + 20)) with 742%R. change (IZR (scissors_x + 50)) with 772%R.
    change (IZR (scissors_y - 15)) with 1254%R. change (IZR (scissors_y + 15)) with 1284%R.
    intros [Hx Hy]. nra.
  - intros Hsound. split; [|split].
    + intros x y. by apply glyph_pixel_in_disk.
    + intros x y Hx Hy Hg. unfold disk_pixels, paint_ellipse.
      apply getpixel_painted.
      * eapply getpixel_is_Some; [apply glow_canvas_size|done..].
      * by apply (glyph_pixel_in_disk env x y Hsound).
    + intros x y Hout.
      assert (¬ glyph_pixel env x y) as Hno.
      { intros Hg. apply (glyph_pixel_in_disk env x y Hsound) in Hg. congruence. }
      unfold logo_canvas, scissors_pixels.
      rewrite curl_pixels_paint, curl2_pixels_paint.
      generalize (disk_pixels env (glow_pixels env (decorated_canvas env))).
      intros im. unfold paint_ellipse, paint_polygon. rewrite !getpixel_paint.
      unfold glyph_pixel in Hno.
      destruct (polygon_mask env curl_points x y); [tauto|].
      destruct (polygon_mask env curl2_points x y); [tauto|].
      destruct (ellipse_mask env blade1_box x y); [tauto|].
      destruct (ellipse_mask env blade2_box x y); [tauto|].
      by destruct (PIL.getpixel im x y).
Qed.

Lemma logo_glyph_inside_disk_witness :
  (dist2_logo (722, 1159) < IZR logo_radius * IZR logo_radius)%R
  ∧ (dist2_logo (772, 1285) < IZR logo_radius * IZR logo_radius)%R
  ∧ polygon_mask sketch curl_points 722 1159 = true
  ∧ ellipse_mask sketch disk_box 722 1159 = true
  ∧ PIL.getpixel (disk_pixels sketch (glow_pixels sketch (decorated_canvas sketch)))
      722 1159 = Some (255, 255, 255)
  ∧ ellipse_mask sketch disk_box 0 0 = false
  ∧ PIL.getpixel (logo_canvas sketch) 0 0
    = PIL.getpixel (disk_pixels sketch (glow_pixels sketch (decorated_canvas sketch))) 0 0.
Proof.
  destruct (logo_glyph_inside_disk sketch) as (_ & _ & Hcurl & _ & Hblade & Hpixels).
  destruct (Hpixels sketch_is_sound) as (Hin & Hwhite & Hout).
  assert (glyph_pixel sketch 722 1159) as Hg by (left; apply first_curl_vertex_inked).
  split; [apply Hcurl; left; apply first_curl_vertex|].
  split.
  { apply Hblade. unfold in_box, blade2_box. simpl.
    change (IZR (scissors_x + 20)) with 742%R. change (IZR (scissors_x + 50)) with 772%R.
    change (IZR (scissors_y - 15)) with 1254%R. change (IZR (scissors_y + 15)) with 1284%R.
    lra. }
  split; [apply first_curl_vertex_inked|].
  split; [by apply Hin|].
  split; [apply Hwhite; [unfold width; lia|unfold height; lia|exact Hg]|].
  split; [reflexivity|].
  apply Hout. reflexivity.
Defined.
